(** * Ticker resolver of [scripts/markets.py]

    A shallow embedding of [trova_prezzo_robusto] and of the [__main__]
    block that feeds it, together with the properties stated about them.

    Modelling choices.
    - Python [str] values are Rocq [string]s.  [upper] and [strip] are exact
      on ASCII text; bytes above 127 are left alone by [upper] and are never
      white space.
    - The quote provider ([yfinance]) is an external collaborator.  It is a
      record of three operations over an arbitrary provider state, each of
      which either returns or raises; the resolver runs in a small monad
      that threads the provider state, propagates exceptions and records
      every provider call together with its response.
    - Values found in the metadata dictionary are dynamically typed in the
      source: [info.get] hands back whatever the provider stored, and
      [.upper()] exists on [str] only.  [pyobj] keeps that distinction.
    - Every exception of the model derives from Python's [Exception]
      (asynchronous signals such as [KeyboardInterrupt] are not provider
      responses), so both [except:] and [except Exception] catch all of them.
    - Creating the browser-like [requests.Session] and the progress [print]
      are taken to succeed; they do not influence control flow or results
      and are left out. *)

From Stdlib Require Import String Ascii ZArith List Bool Lia.
From stdpp Require Import gmap strings.
Import ListNotations.

Local Open Scope string_scope.

(** ** Python strings *)

(** [str.upper] on ASCII letters. *)
Definition upper_char (c : ascii) : ascii :=
  let n := nat_of_ascii c in
  if (97 <=? n)%nat && (n <=? 122)%nat then ascii_of_nat (n - 32) else c.

Fixpoint upper (s : string) : string :=
  match s with
  | EmptyString => EmptyString
  | String c s' => String (upper_char c) (upper s')
  end.

(** [str.isspace] for one ASCII character: TAB, LF, VT, FF, CR, the four
    separators FS, GS, RS, US, and the space. *)
Definition isspace (c : ascii) : bool :=
  let n := nat_of_ascii c in
  ((9 <=? n)%nat && (n <=? 13)%nat) || ((28 <=? n)%nat && (n <=? 32)%nat).

Fixpoint lstrip (s : string) : string :=
  match s with
  | EmptyString => EmptyString
  | String c s' => if isspace c then lstrip s' else s
  end.

Fixpoint rstrip (s : string) : string :=
  match s with
  | EmptyString => EmptyString
  | String c s' =>
      match rstrip s' with
      | EmptyString => if isspace c then EmptyString else String c EmptyString
      | r => String c r
      end
  end.

(** [str.strip()] without argument. *)
Definition strip (s : string) : string := rstrip (lstrip s).

(** All characters of [s] are white space. *)
Fixpoint tutti_spazi (s : string) : bool :=
  match s with
  | EmptyString => true
  | String c s' => isspace c && tutti_spazi s'
  end.

(** [needle in hay] for two strings. *)
Fixpoint str_in (needle hay : string) : bool :=
  if String.prefix needle hay then true
  else match hay with
       | EmptyString => false
       | String _ hay' => str_in needle hay'
       end.

(** ** Python values, exceptions, results *)

Inductive pyobj : Type :=
| PyStr (s : string)
| PyNone
| PyInt (z : Z).

Inductive exn : Type :=
| AttributeError
| IndexError
| ProviderError (msg : string).

Inductive py_result (A : Type) : Type :=
| Ok (a : A)
| Raises (e : exn).
Arguments Ok {A} a.
Arguments Raises {A} e.

(** [d.get(k, dflt)] on a dictionary with string keys. *)
Definition dict_get (d : gmap string pyobj) (k : string) (dflt : pyobj) : pyobj :=
  match d !! k with
  | Some v => v
  | None => dflt
  end.

(** [o.upper()]: defined on [str], [AttributeError] on anything else. *)
Definition py_upper (o : pyobj) : py_result string :=
  match o with
  | PyStr s => Ok (upper s)
  | _ => Raises AttributeError
  end.

(** [series.iloc[-1]]: the last element, [IndexError] on an empty series. *)
Fixpoint iloc_last {A : Type} (l : list A) : py_result A :=
  match l with
  | [] => Raises IndexError
  | [x] => Ok x
  | _ :: l' => iloc_last l'
  end.

(** ** Categories (lines 44-50) *)

Definition cat_generico : string := "Generico".
Definition cat_mondo : string := "🌍 Azionario Mondo".
Definition cat_usa : string := "🇺🇸 Azionario USA".
Definition cat_obbligazionario : string := "🏛️ Obbligazionario".
Definition cat_emergenti : string := "🐯 Emergenti".

(** The [if]/[elif] chain applied to [n = nome.upper()]. *)
Definition categoria (n : string) : string :=
  if str_in "MSCI WORLD" n || str_in "GLOBAL" n then cat_mondo
  else if str_in "S&P 500" n || str_in "USA" n then cat_usa
  else if str_in "BOND" n then cat_obbligazionario
  else if str_in "EMERGING" n then cat_emergenti
  else cat_generico.

(** The classification as the specification words it: an ordered table of
    (keywords, label) rows, the first row with a keyword occurring in the
    name wins, and a default when no row matches. *)
Definition tabella_categorie : list (list string * string) :=
  [ (["MSCI WORLD"; "GLOBAL"], cat_mondo);
    (["S&P 500"; "USA"], cat_usa);
    (["BOND"], cat_obbligazionario);
    (["EMERGING"], cat_emergenti) ].

Fixpoint prima_riga (tab : list (list string * string)) (n : string) : string :=
  match tab with
  | [] => cat_generico
  | (parole, etichetta) :: tab' =>
      if existsb (fun p => str_in p n) parole then etichetta
      else prima_riga tab' n
  end.

Definition categoria_spec (n : string) : string := prima_riga tabella_categorie n.

(** The same classification read row by row: [parola] occurs in [n], and
    each row applies only when no earlier row does. *)
Definition contiene (parola n : string) : Prop :=
  exists a b, n = a ++ parola ++ b.

Definition riga_mondo (n : string) : Prop :=
  contiene "MSCI WORLD" n \/ contiene "GLOBAL" n.

Definition riga_usa (n : string) : Prop :=
  contiene "S&P 500" n \/ contiene "USA" n.

Inductive classifica (n : string) : string -> Prop :=
| cl_mondo :
    riga_mondo n -> classifica n cat_mondo
| cl_usa :
    ~ riga_mondo n -> riga_usa n -> classifica n cat_usa
| cl_obbligazionario :
    ~ riga_mondo n -> ~ riga_usa n -> contiene "BOND" n ->
    classifica n cat_obbligazionario
| cl_emergenti :
    ~ riga_mondo n -> ~ riga_usa n -> ~ contiene "BOND" n -> contiene "EMERGING" n ->
    classifica n cat_emergenti
| cl_generico :
    ~ riga_mondo n -> ~ riga_usa n -> ~ contiene "BOND" n -> ~ contiene "EMERGING" n ->
    classifica n cat_generico.

(** ** Candidate symbols (lines 13-20) *)

Definition possibili_ticker (ticker_input : string) : list string :=
  [ ticker_input ++ ".MI";
    ticker_input ++ ".PA";
    ticker_input ++ ".DE";
    ticker_input ++ ".AS";
    ticker_input ++ ".L";
    ticker_input ].

(** ** The quote provider and the resolver *)

Section Resolver.

Context {Price St : Type}.

(** A price-history table, column oriented as in pandas; only the column
    the resolver reads is kept.  Every bar has a closing price, so the
    table is empty exactly when that column is. *)
Record DataFrame : Type := { Close : list Price }.

Definition empty (storia : DataFrame) : bool :=
  match Close storia with
  | [] => true
  | _ :: _ => false
  end.

(** [yf.Ticker(simbolo, session=session)], [etf.history(period=...)] and
    [etf.info], each over the provider's own state. *)
Record Provider : Type := {
  Ticker : string -> St -> py_result unit * St;
  history : string -> string -> St -> py_result DataFrame * St;
  info : string -> St -> py_result (gmap string pyobj) * St
}.

(** One provider call with the response it got. *)
Inductive event : Type :=
| EvTicker (simbolo : string) (r : py_result unit)
| EvHistory (simbolo period : string) (r : py_result DataFrame)
| EvInfo (simbolo : string) (r : py_result (gmap string pyobj)).

(** The quote result: [{"trovato": False}] or the six-key dictionary. *)
Record Quotazione : Type := {
  simbolo : string;
  prezzo : Price;
  nome : pyobj;
  cat : string;
  valuta : pyobj
}.

Inductive Risultato : Type :=
| NonTrovato
| Trovato (q : Quotazione).

Definition trovato (r : Risultato) : bool :=
  match r with
  | NonTrovato => false
  | Trovato _ => true
  end.

(** Computations: provider state in, outcome, calls made and state out. *)
Definition M (A : Type) : Type := St -> py_result A * list event * St.

Definition ret {A} (a : A) : M A := fun s => (Ok a, [], s).

Definition bind {A B} (m : M A) (k : A -> M B) : M B :=
  fun s =>
    match m s with
    | (Ok a, t1, s1) =>
        match k a s1 with
        | (r, t2, s2) => (r, (t1 ++ t2)%list, s2)
        end
    | (Raises e, t1, s1) => (Raises e, t1, s1)
    end.

Definition lift {A} (r : py_result A) : M A := fun s => (r, [], s).

(** [try: m  except: h] *)
Definition try_except {A} (m : M A) (h : exn -> M A) : M A :=
  fun s =>
    match m s with
    | (Ok a, t1, s1) => (Ok a, t1, s1)
    | (Raises e, t1, s1) =>
        match h e s1 with
        | (r, t2, s2) => (r, (t1 ++ t2)%list, s2)
        end
    end.

Notation "'let*' x ':=' m 'in' k" := (bind m (fun x => k))
  (at level 10, x pattern, m at level 100, k at level 200, only parsing).

Variable P : Provider.

Definition call_Ticker (sym : string) : M unit :=
  fun s => let '(r, s') := Ticker P sym s in (r, [EvTicker sym r], s').

Definition call_history (sym period : string) : M DataFrame :=
  fun s => let '(r, s') := history P sym period s in (r, [EvHistory sym period r], s').

Definition call_info (sym : string) : M (gmap string pyobj) :=
  fun s => let '(r, s') := info P sym s in (r, [EvInfo sym r], s').

(** Lines 36-42: the metadata lookup with its own handler. *)
Definition metadati (simbolo : string) : M (pyobj * pyobj) :=
  try_except
    (let* info := call_info simbolo in
     let nome := dict_get info "longName" (PyStr simbolo) in
     let valuta := dict_get info "currency" (PyStr "EUR") in
     ret (nome, valuta))
    (fun _ => ret (PyStr simbolo, PyStr "?")).

(** Lines 27-59: the body of the [try] block for one candidate.  [Some q]
    is the [return] of line 52, [None] falls out of the [if] of line 32. *)
Definition corpo (simbolo : string) : M (option Quotazione) :=
  let* etf := call_Ticker simbolo in
  let* storia := call_history simbolo "5d" in
  if negb (empty storia) then
    let* prezzo := lift (iloc_last (Close storia)) in
    let* (nome, valuta) := metadati simbolo in
    let* n := lift (py_upper nome) in
    ret (Some {| simbolo := simbolo; prezzo := prezzo; nome := nome;
                 cat := categoria n; valuta := valuta |})
  else ret None.

(** Lines 25-63: one iteration, the handler of line 61 turns any exception
    into a [continue]. *)
Definition tenta (simbolo : string) : M (option Quotazione) :=
  try_except (corpo simbolo) (fun _ => ret None).

(** Lines 24-65: the [for] loop and the final [return]. *)
Fixpoint ciclo (candidati : list string) : M Risultato :=
  match candidati with
  | [] => ret NonTrovato
  | simbolo :: resto =>
      let* o := tenta simbolo in
      match o with
      | Some q => ret (Trovato q)
      | None => ciclo resto
      end
  end.

Definition trova_prezzo_robusto (ticker_input : string) : M Risultato :=
  ciclo (possibili_ticker ticker_input).

(** Lines 68-69: the line read by [input] is upper-cased, then stripped,
    then handed to the resolver. *)
Definition main (riga : string) : M Risultato :=
  let t := strip (upper riga) in
  trova_prezzo_robusto t.

(** ** Reading a run

    Vocabulary for statements about runs: what the calls of one loop
    iteration and of the whole loop look like, and what can be read off the
    list of calls. *)

(** The display name and currency chosen from the metadata response. *)
Definition metadati_da (c : string) (ri : py_result (gmap string pyobj)) : pyobj * pyobj :=
  match ri with
  | Ok d => (dict_get d "longName" (PyStr c), dict_get d "currency" (PyStr "EUR"))
  | Raises _ => (PyStr c, PyStr "?")
  end.

(** The calls of one loop iteration for candidate [c], and what it hands
    to the loop. *)
Inductive tentativo (c : string) : list event -> option Quotazione -> Prop :=
| tent_ticker e :
    tentativo c [EvTicker c (Raises e)] None
| tent_history e :
    tentativo c [EvTicker c (Ok tt); EvHistory c "5d" (Raises e)] None
| tent_vuota df :
    Close df = [] ->
    tentativo c [EvTicker c (Ok tt); EvHistory c "5d" (Ok df)] None
| tent_nome df ri :
    Close df <> [] ->
    (forall n, fst (metadati_da c ri) <> PyStr n) ->
    tentativo c [EvTicker c (Ok tt); EvHistory c "5d" (Ok df); EvInfo c ri] None
| tent_trovato df ri p n :
    iloc_last (Close df) = Ok p ->
    fst (metadati_da c ri) = PyStr n ->
    tentativo c [EvTicker c (Ok tt); EvHistory c "5d" (Ok df); EvInfo c ri]
      (Some {| simbolo := c; prezzo := p; nome := PyStr n;
               cat := categoria (upper n); valuta := snd (metadati_da c ri) |}).

(** The calls of the loop over [l], and its result. *)
Inductive esecuzione : list string -> list event -> Risultato -> Prop :=
| esec_fine :
    esecuzione [] [] NonTrovato
| esec_salta c l t t' r :
    tentativo c t None -> esecuzione l t' r ->
    esecuzione (c :: l) (t ++ t')%list r
| esec_trovato c l t q :
    tentativo c t (Some q) ->
    esecuzione (c :: l) t (Trovato q).

(** Every recorded call is a response the provider gave in some state. *)
Definition genuino (ev : event) : Prop :=
  match ev with
  | EvTicker c r => exists s0, fst (Ticker P c s0) = r
  | EvHistory c per r => exists s0, fst (history P c per s0) = r
  | EvInfo c r => exists s0, fst (info P c s0) = r
  end.

(** The symbol a call names. *)
Definition simbolo_di (ev : event) : string :=
  match ev with
  | EvTicker c _ | EvHistory c _ _ | EvInfo c _ => c
  end.

(** No usable price history: the fetch raised or the table is empty. *)
Definition storia_assente (rh : py_result DataFrame) : Prop :=
  match rh with
  | Ok df => Close df = []
  | Raises _ => True
  end.

(** The symbols of the constructor calls, of the price-history requests and
    of the metadata requests of a run, each in the order they were made. *)
Definition tentati (t : list event) : list string :=
  flat_map (fun ev => match ev with EvTicker c _ => [c] | _ => [] end) t.

Definition richieste_history (t : list event) : list string :=
  flat_map (fun ev => match ev with EvHistory c _ _ => [c] | _ => [] end) t.

Definition richieste_info (t : list event) : list string :=
  flat_map (fun ev => match ev with EvInfo c _ => [c] | _ => [] end) t.

(** The provider answers each request the same way in every state. *)
Definition risposte_fisse : Prop :=
  (forall c s1 s2, fst (Ticker P c s1) = fst (Ticker P c s2)) /\
  (forall c per s1 s2, fst (history P c per s1) = fst (history P c per s2)) /\
  (forall c s1 s2, fst (info P c s1) = fst (info P c s2)).

(** Every long name the provider stored in a metadata dictionary of the
    run is a string. *)
Definition nomi_testuali (t : list event) : Prop :=
  forall c d v, In (EvInfo c (Ok d)) t -> d !! "longName" = Some v -> exists n, v = PyStr n.

End Resolver.

Arguments DataFrame : clear implicits.
Arguments Provider : clear implicits.
Arguments event : clear implicits.
Arguments Quotazione : clear implicits.
Arguments Risultato : clear implicits.
Arguments M : clear implicits.

(** ** Stub providers *)

(** A table-driven stub.  The constructor always succeeds, price history
    and metadata are looked up by symbol, and the state counts the calls
    received.  Prices are in euro cents. *)
Definition stub (h : string -> py_result (DataFrame Z))
    (i : string -> py_result (gmap string pyobj)) : Provider Z nat :=
  {| Ticker := fun _ n => (Ok tt, S n);
     history := fun c _ n => (h c, S n);
     info := fun c n => (i c, S n) |}.

Definition barre (chiusure : list Z) : py_result (DataFrame Z) :=
  Ok {| Close := chiusure |}.

Definition dict (voci : list (string * pyobj)) : py_result (gmap string pyobj) :=
  Ok (list_to_map voci).

(** Price history for the listed symbols only, an empty table otherwise. *)
Definition storia_solo (simboli : list string) (c : string) : py_result (DataFrame Z) :=
  if existsb (String.eqb c) simboli then barre [9790; 9812; 9835]%Z else barre [].

(** Empty tables everywhere, and a provider error for the Paris symbol. *)
Definition storia_nessuna (c : string) : py_result (DataFrame Z) :=
  if String.eqb c "MWRD.PA" then Raises (ProviderError "404") else barre [].

Definition info_completa (_ : string) : py_result (gmap string pyobj) :=
  dict [("longName", PyStr "Amundi MSCI World Emerging Markets Fund");
        ("currency", PyStr "USD")].

Definition info_errore (_ : string) : py_result (gmap string pyobj) :=
  Raises (ProviderError "401").


(** The long name is present in the dictionary, with value [None]. *)
Definition info_nome_nullo (_ : string) : py_result (gmap string pyobj) :=
  dict [("longName", PyNone);
        ("shortName", PyStr "AMUNDI MSCI WORLD UCITS ETF");
        ("currency", PyStr "EUR")].

(** [None] as long name for Milan and Paris, a proper name elsewhere. *)
Definition info_nome_nullo_MI_PA (c : string) : py_result (gmap string pyobj) :=
  if String.eqb c "MWRD.MI" || String.eqb c "MWRD.PA" then info_nome_nullo c
  else info_completa c.

(** ** Further vocabulary

    Used by the properties that go beyond single runs of one provider. *)

(** The five category labels the classification can produce. *)
Definition etichette : list string :=
  [cat_mondo; cat_usa; cat_obbligazionario; cat_emergenti; cat_generico].

(** The provider [P] with every raised price-history fetch replaced by an
    empty table; the state moves as in [P]. *)
Definition errori_come_vuote {Price St : Type} (P : Provider Price St) : Provider Price St :=
  {| Ticker := Ticker P;
     history := fun c per s =>
       match history P c per s with
       | (Raises _, s') => (Ok {| Close := [] |}, s')
       | (Ok df, s') => (Ok df, s')
       end;
     info := info P |}.

(** Whatever the provider stores under the long-name key is a string. *)
Definition provider_testuale {Price St : Type} (P : Provider Price St) : Prop :=
  forall c s0 d v,
    fst (info P c s0) = Ok d -> d !! "longName" = Some v -> exists n, v = PyStr n.

(** A provider that is down: the constructor raises for every symbol. *)
Definition stub_fuori_servizio : Provider Z nat :=
  {| Ticker := fun _ n => (Raises (ProviderError "503"), S n);
     history := fun _ _ n => (barre [9790; 9812; 9835]%Z, S n);
     info := fun c n => (info_completa c, S n) |}.

(** The currency key holds [None], the long name is a proper string. *)
Definition info_valuta_nulla (_ : string) : py_result (gmap string pyobj) :=
  dict [("longName", PyStr "Lyxor Core Global Bond"); ("currency", PyNone)].

(** ** Facts about the string operations *)

Lemma append_cons (c : ascii) (a b : string) :
  String c a ++ b = String c (a ++ b).
Proof. reflexivity. Qed.

Lemma prefix_app (p s : string) :
  String.prefix p s = true <-> exists b, s = p ++ b.
Proof.
  revert s. induction p as [|c p IH]; intros s.
  - split; [intros _; exists s; reflexivity | intros _; destruct s; reflexivity].
  - destruct s as [|d s].
    + split; [discriminate | intros [b Hb]; discriminate].
    + change (String.prefix (String c p) (String d s))
        with (if Ascii.ascii_dec c d then String.prefix p s else false).
      destruct (Ascii.ascii_dec c d) as [->|Hne].
      * rewrite IH. split; intros [b Hb]; exists b.
        -- rewrite append_cons. congruence.
        -- rewrite append_cons in Hb. congruence.
      * split; [discriminate | intros [b Hb]; rewrite append_cons in Hb; congruence].
Qed.

Lemma str_in_unfold (p s : string) :
  str_in p s =
    if String.prefix p s then true
    else match s with
         | EmptyString => false
         | String _ s' => str_in p s'
         end.
Proof. destruct s; reflexivity. Qed.

Lemma str_in_spec (p s : string) :
  str_in p s = true <-> exists a b, s = a ++ p ++ b.
Proof.
  split.
  - induction s as [|c s IH]; rewrite str_in_unfold.
    + destruct (String.prefix p "") eqn:E; [|discriminate].
      intros _. apply prefix_app in E. destruct E as [b Hb]. exists "", b. exact Hb.
    + destruct (String.prefix p (String c s)) eqn:E.
      * intros _. apply prefix_app in E. destruct E as [b Hb]. exists "", b. exact Hb.
      * intros H. destruct (IH H) as (a & b & ->). exists (String c a), b. reflexivity.
  - intros (a & b & ->). induction a as [|c a IH]; rewrite str_in_unfold.
    + replace (String.prefix p ("" ++ p ++ b)) with true; [reflexivity|].
      symmetry. apply prefix_app. exists b. reflexivity.
    + rewrite append_cons, IH.
      destruct (String.prefix p (String c (a ++ p ++ b))); reflexivity.
Qed.

Lemma str_in_contiene (p s : string) : str_in p s = true <-> contiene p s.
Proof. apply str_in_spec. Qed.

Lemma str_in_non_contiene (p s : string) : str_in p s = false <-> ~ contiene p s.
Proof.
  rewrite <- str_in_contiene. destruct (str_in p s); split; congruence.
Qed.

Lemma riga_mondo_bool (n : string) :
  str_in "MSCI WORLD" n || str_in "GLOBAL" n = true <-> riga_mondo n.
Proof. unfold riga_mondo. rewrite orb_true_iff, !str_in_contiene. reflexivity. Qed.

Lemma riga_usa_bool (n : string) :
  str_in "S&P 500" n || str_in "USA" n = true <-> riga_usa n.
Proof. unfold riga_usa. rewrite orb_true_iff, !str_in_contiene. reflexivity. Qed.

(** The [if]/[elif] chain picks the category of the row-by-row reading. *)
Lemma categoria_classifica (n : string) : classifica n (categoria n).
Proof.
  unfold categoria.
  destruct (str_in "MSCI WORLD" n || str_in "GLOBAL" n) eqn:E1.
  { apply cl_mondo, riga_mondo_bool, E1. }
  assert (N1 : ~ riga_mondo n) by (rewrite <- riga_mondo_bool; congruence).
  destruct (str_in "S&P 500" n || str_in "USA" n) eqn:E2.
  { apply cl_usa; [exact N1 | apply riga_usa_bool, E2]. }
  assert (N2 : ~ riga_usa n) by (rewrite <- riga_usa_bool; congruence).
  destruct (str_in "BOND" n) eqn:E3.
  { apply cl_obbligazionario; [exact N1 | exact N2 | apply str_in_contiene, E3]. }
  apply str_in_non_contiene in E3.
  destruct (str_in "EMERGING" n) eqn:E4.
  { apply cl_emergenti; [exact N1 | exact N2 | exact E3 | apply str_in_contiene, E4]. }
  apply str_in_non_contiene in E4.
  apply cl_generico; assumption.
Qed.

(** The row-by-row reading assigns one category only. *)
Lemma classifica_categoria (n c : string) : classifica n c -> c = categoria n.
Proof.
  intros H. pose proof (categoria_classifica n) as K.
  destruct H; inversion K; try reflexivity; contradiction.
Qed.

Lemma lstrip_app (s : string) : exists a, s = a ++ lstrip s /\ tutti_spazi a = true.
Proof.
  induction s as [|c s IH].
  - exists "". split; reflexivity.
  - simpl. destruct (isspace c) eqn:E.
    + destruct IH as (a & Ha & Hs). exists (String c a). split.
      * rewrite append_cons, <- Ha. reflexivity.
      * simpl. rewrite E, Hs. reflexivity.
    + exists "". split; reflexivity.
Qed.

Lemma rstrip_app (s : string) : exists b, s = rstrip s ++ b /\ tutti_spazi b = true.
Proof.
  induction s as [|c s IH].
  - exists "". split; reflexivity.
  - simpl. destruct IH as (b & Hb & Hs).
    destruct (rstrip s) as [|d r] eqn:E.
    + destruct (isspace c) eqn:Ec.
      * exists (String c s). split; [reflexivity|].
        simpl. rewrite Ec. simpl. rewrite Hb. exact Hs.
      * exists b. split; [|exact Hs]. rewrite append_cons, <- Hb. reflexivity.
    + exists b. split; [|exact Hs]. rewrite append_cons, <- Hb. reflexivity.
Qed.

(** [strip] removes a run of white space on each side and nothing else. *)
Lemma strip_app (s : string) :
  exists a b, s = a ++ strip s ++ b /\ tutti_spazi a = true /\ tutti_spazi b = true.
Proof.
  destruct (lstrip_app s) as (a & Ha & Hsa).
  destruct (rstrip_app (lstrip s)) as (b & Hb & Hsb).
  exists a, b. unfold strip. rewrite <- Hb. auto.
Qed.

Lemma upper_char_idem (c : ascii) : upper_char (upper_char c) = upper_char c.
Proof.
  destruct c as [[] [] [] [] [] [] [] []]; reflexivity.
Qed.

Lemma isspace_upper_char (c : ascii) : isspace (upper_char c) = isspace c.
Proof.
  destruct c as [[] [] [] [] [] [] [] []]; reflexivity.
Qed.

Lemma upper_idem (s : string) : upper (upper s) = upper s.
Proof.
  induction s as [|c s IH]; simpl; [reflexivity|].
  rewrite upper_char_idem, IH. reflexivity.
Qed.

Lemma upper_lstrip (s : string) : upper (lstrip s) = lstrip (upper s).
Proof.
  induction s as [|c s IH]; simpl; [reflexivity|].
  rewrite isspace_upper_char. destruct (isspace c); [exact IH | reflexivity].
Qed.

Lemma upper_rstrip (s : string) : upper (rstrip s) = rstrip (upper s).
Proof.
  induction s as [|c s IH]; simpl; [reflexivity|].
  rewrite <- IH, isspace_upper_char.
  destruct (rstrip s); simpl; [destruct (isspace c); reflexivity | reflexivity].
Qed.

Lemma upper_strip (s : string) : upper (strip s) = strip (upper s).
Proof. unfold strip. rewrite upper_rstrip, upper_lstrip. reflexivity. Qed.

Lemma lstrip_idem (s : string) : lstrip (lstrip s) = lstrip s.
Proof.
  induction s as [|c s IH]; simpl; [reflexivity|].
  destruct (isspace c) eqn:E; [exact IH | simpl; rewrite E; reflexivity].
Qed.

Lemma rstrip_idem (s : string) : rstrip (rstrip s) = rstrip s.
Proof.
  induction s as [|c s IH]; simpl; [reflexivity|].
  destruct (rstrip s) as [|d r] eqn:E.
  - destruct (isspace c) eqn:Ec; simpl; [reflexivity | rewrite Ec; reflexivity].
  - simpl. simpl in IH. rewrite IH. reflexivity.
Qed.

(** What is left of [rstrip] does not start with white space unless the
    argument did. *)
Lemma lstrip_rstrip (s : string) : lstrip (rstrip (lstrip s)) = rstrip (lstrip s).
Proof.
  induction s as [|c s IH]; simpl; [reflexivity|].
  destruct (isspace c) eqn:E; [exact IH|].
  simpl. destruct (rstrip s); rewrite ?E; simpl; rewrite E; reflexivity.
Qed.

Lemma strip_idem (s : string) : strip (strip s) = strip s.
Proof. unfold strip. rewrite lstrip_rstrip, rstrip_idem. reflexivity. Qed.

(** *** The six candidates are pairwise distinct *)

Lemma append_inj_r (a x y : string) : a ++ x = a ++ y -> x = y.
Proof.
  induction a as [|c a IH]; intros H; [exact H|].
  rewrite !append_cons in H. injection H as H. exact (IH H).
Qed.

Lemma append_length (a x : string) :
  String.length (a ++ x) = (String.length a + String.length x)%nat.
Proof.
  induction a as [|c a IH]; [reflexivity|].
  rewrite append_cons. simpl. rewrite IH. reflexivity.
Qed.

Lemma append_neq_self (a x : string) : x <> "" -> a ++ x <> a.
Proof.
  intros Hx H. apply (f_equal String.length) in H.
  rewrite append_length in H. destruct x; [congruence|]. simpl in H. lia.
Qed.

Lemma possibili_ticker_NoDup (ticker_input : string) :
  List.NoDup (possibili_ticker ticker_input).
Proof.
  unfold possibili_ticker.
  assert (Hs : forall x y, x <> y -> ticker_input ++ x <> ticker_input ++ y).
  { intros x y Hxy H. apply Hxy, (append_inj_r _ _ _ H). }
  assert (Hn : forall x, x <> "" -> ticker_input ++ x <> ticker_input).
  { intros x. apply append_neq_self. }
  repeat (constructor; [simpl; intros Hin;
    repeat (destruct Hin as [Hin|Hin];
            [first [ apply Hs in Hin; [exact Hin | discriminate]
                   | symmetry in Hin; apply Hn in Hin; [exact Hin | discriminate] ]|]);
    exact Hin|]).
  constructor.
Qed.

(** ** What one candidate attempt and a whole run look like *)

Section Esecuzione.

Context {Price St : Type}.
Variable P : Provider Price St.

Lemma iloc_last_nonempty {A} (l : list A) : l <> [] -> exists x, iloc_last l = Ok x.
Proof.
  induction l as [|a l IH]; [congruence|]. intros _.
  destruct l as [|b l]; [exists a; reflexivity|].
  destruct IH as [x Hx]; [discriminate|]. exists x. exact Hx.
Qed.

Lemma metadati_run (c : string) (s : St) :
  metadati P c s =
    (Ok (metadati_da c (fst (info P c s))), [EvInfo c (fst (info P c s))], snd (info P c s)).
Proof.
  unfold metadati, try_except, bind, call_info, ret.
  destruct (info P c s) as [[d|e] s']; reflexivity.
Qed.

Lemma tenta_tentativo (c : string) (s : St) :
  exists o t s', tenta P c s = (Ok o, t, s') /\ tentativo c t o.
Proof.
  unfold tenta, try_except, corpo, bind, call_Ticker, call_history.
  destruct (Ticker P c s) as [[[]|e] s1].
  2:{ eexists _, _, _. split; [reflexivity|]. simpl. constructor. }
  destruct (history P c "5d" s1) as [[df|e] s2].
  2:{ eexists _, _, _. split; [reflexivity|]. simpl. constructor. }
  unfold empty. destruct (Close df) as [|b l] eqn:E.
  { eexists _, _, _. split; [reflexivity|]. simpl. constructor. exact E. }
  cbn [negb]. cbv beta iota.
  destruct (iloc_last_nonempty (b :: l)) as [p Hp]; [discriminate|].
  unfold lift at 1. rewrite Hp. rewrite metadati_run.
  destruct (metadati_da c (fst (info P c s2))) as [no va] eqn:Em.
  destruct no as [n| |z]; simpl; (eexists _, _, _; split; [reflexivity|]).
  - replace va with (snd (metadati_da c (fst (info P c s2)))) by (rewrite Em; reflexivity).
    apply tent_trovato with (df := df); [rewrite E; exact Hp | rewrite Em; reflexivity].
  - apply tent_nome; [rewrite E; discriminate | rewrite Em; discriminate].
  - apply tent_nome; [rewrite E; discriminate | rewrite Em; discriminate].
Qed.

Lemma ciclo_esecuzione (l : list string) (s : St) :
  exists r t s', ciclo P l s = (Ok r, t, s') /\ esecuzione l t r.
Proof.
  revert s. induction l as [|c l IH]; intros s.
  - exists NonTrovato, [], s. split; [reflexivity | constructor].
  - simpl. unfold bind.
    destruct (tenta_tentativo c s) as (o & t & s1 & Ht & Hrel). rewrite Ht.
    destruct o as [q|].
    + exists (Trovato q), t, s1. split.
      * unfold ret. rewrite app_nil_r. reflexivity.
      * apply esec_trovato. exact Hrel.
    + destruct (IH s1) as (r & t' & s2 & Hc & Hrel'). rewrite Hc.
      exists r, (t ++ t')%list, s2. split; [reflexivity|].
      apply esec_salta; assumption.
Qed.

(** One iteration in closed form: which calls are made, in which provider
    states, and what comes out. *)
Lemma tenta_eq (c : string) (s : St) :
  tenta P c s =
    match Ticker P c s with
    | (Raises e, s1) => (Ok None, [EvTicker c (Raises e)], s1)
    | (Ok u, s1) =>
        match history P c "5d" s1 with
        | (Raises e, s2) =>
            (Ok None, [EvTicker c (Ok u); EvHistory c "5d" (Raises e)], s2)
        | (Ok df, s2) =>
            match iloc_last (Close df) with
            | Raises _ =>
                (Ok None, [EvTicker c (Ok u); EvHistory c "5d" (Ok df)], s2)
            | Ok p =>
                let ri := fst (info P c s2) in
                let t := [EvTicker c (Ok u); EvHistory c "5d" (Ok df); EvInfo c ri] in
                match fst (metadati_da c ri) with
                | PyStr n =>
                    (Ok (Some {| simbolo := c; prezzo := p; nome := PyStr n;
                                 cat := categoria (upper n);
                                 valuta := snd (metadati_da c ri) |}),
                     t, snd (info P c s2))
                | _ => (Ok None, t, snd (info P c s2))
                end
            end
        end
    end.
Proof.
  unfold tenta, try_except, corpo, bind, call_Ticker, call_history.
  destruct (Ticker P c s) as [[u|e] s1]; [|reflexivity].
  destruct (history P c "5d" s1) as [[df|e] s2]; [|reflexivity].
  unfold empty. destruct (Close df) as [|b l] eqn:E; [reflexivity|].
  cbn [negb]. cbv beta iota.
  destruct (iloc_last_nonempty (b :: l)) as [p Hp]; [discriminate|].
  unfold lift at 1. rewrite Hp, metadati_run.
  destruct (metadati_da c (fst (info P c s2))) as [no va].
  destruct no; reflexivity.
Qed.

Lemma tenta_genuino (c : string) (s : St) :
  Forall (genuino P) (snd (fst (tenta P c s))).
Proof.
  rewrite tenta_eq.
  destruct (Ticker P c s) as [[u|e] s1] eqn:Et.
  2:{ repeat constructor. exists s. rewrite Et. reflexivity. }
  assert (Gt : genuino P (EvTicker c (Ok u))) by (exists s; rewrite Et; reflexivity).
  destruct (history P c "5d" s1) as [[df|e] s2] eqn:Eh.
  2:{ repeat constructor; [exact Gt|]. exists s1. rewrite Eh. reflexivity. }
  assert (Gh : genuino P (EvHistory c "5d" (Ok df))) by (exists s1; rewrite Eh; reflexivity).
  destruct (iloc_last (Close df)); [|repeat constructor; assumption].
  assert (Gi : genuino P (EvInfo c (fst (info P c s2)))) by (exists s2; reflexivity).
  cbv zeta.
  destruct (fst (metadati_da c (fst (info P c s2)))); repeat constructor; assumption.
Qed.

Lemma ciclo_genuino (l : list string) (s : St) :
  Forall (genuino P) (snd (fst (ciclo P l s))).
Proof.
  revert s. induction l as [|c l IH]; intros s; [constructor|].
  simpl. unfold bind.
  pose proof (tenta_genuino c s) as Hg.
  destruct (tenta_tentativo c s) as (o & t & s1 & Ht & _).
  rewrite Ht in Hg |- *. simpl in Hg.
  destruct o as [q|].
  - simpl. rewrite app_nil_r. exact Hg.
  - specialize (IH s1). destruct (ciclo P l s1) as [[r t'] s2].
    simpl in IH |- *. apply Forall_app. split; assumption.
Qed.

Lemma tentativo_simbolo c (t : list (event Price)) o ev :
  tentativo c t o -> In ev t -> simbolo_di ev = c.
Proof.
  intros H Hin. destruct H; simpl in Hin;
    repeat (destruct Hin as [<-|Hin]; [reflexivity|]); contradiction.
Qed.

Lemma esecuzione_simbolo l (t : list (event Price)) r ev :
  esecuzione l t r -> In ev t -> In (simbolo_di ev) l.
Proof.
  intros H. induction H as [|c l t t' r Ht _ IH|c l t q Ht]; intros Hin.
  - contradiction.
  - apply in_app_or in Hin. destruct Hin as [Hin|Hin].
    + left. symmetry. eapply tentativo_simbolo; eassumption.
    + right. apply IH, Hin.
  - left. symmetry. eapply tentativo_simbolo; eassumption.
Qed.

(** A skipped candidate either had no usable history, or it had one and
    the display name taken from its metadata was not a string. *)
Lemma tentativo_None_history c (t : list (event Price)) per rh :
  tentativo c t None -> In (EvHistory c per rh) t ->
  storia_assente rh \/
  exists ri, In (EvInfo c ri) t /\ forall n, fst (metadati_da c ri) <> PyStr n.
Proof.
  intros H Hin. inversion H; subst; simpl in Hin;
    repeat (destruct Hin as [Hin|Hin]; [try discriminate|]); try contradiction.
  - injection Hin as <- <-. left. exact I.
  - injection Hin as <- <-. left. assumption.
  - right. exists ri. split; [simpl; auto|assumption].
Qed.

Lemma tentativo_None_info c (t : list (event Price)) ri :
  tentativo c t None -> In (EvInfo c ri) t ->
  forall n, fst (metadati_da c ri) <> PyStr n.
Proof.
  intros H Hin. inversion H; subst; simpl in Hin;
    repeat (destruct Hin as [Hin|Hin]; [try discriminate|]); try contradiction.
  injection Hin as <-. assumption.
Qed.

Lemma saltati_info l (t : list (event Price)) c ri :
  esecuzione l t NonTrovato -> In (EvInfo c ri) t ->
  forall n, fst (metadati_da c ri) <> PyStr n.
Proof.
  intros H. remember NonTrovato as r eqn:Er.
  induction H as [|c0 l t t' r Ht _ IH|c0 l t q Ht]; intros Hin.
  - contradiction.
  - apply in_app_or in Hin. destruct Hin as [Hin|Hin]; [|exact (IH Er Hin)].
    assert (c = c0) as -> by (apply (tentativo_simbolo _ _ _ _ Ht Hin)).
    eapply tentativo_None_info; eassumption.
  - discriminate.
Qed.

(** A successful run: the candidates before the match were all skipped,
    and the match made exactly three calls. *)
Lemma esecuzione_Trovato l (t : list (event Price)) q :
  esecuzione l t (Trovato q) ->
  exists l1 l2 t1 df ri p n,
    l = (l1 ++ simbolo q :: l2)%list /\
    esecuzione l1 t1 NonTrovato /\
    t = (t1 ++ [EvTicker (simbolo q) (Ok tt); EvHistory (simbolo q) "5d" (Ok df);
                EvInfo (simbolo q) ri])%list /\
    iloc_last (Close df) = Ok p /\
    metadati_da (simbolo q) ri = (PyStr n, valuta q) /\
    q = {| simbolo := simbolo q; prezzo := p; nome := PyStr n;
           cat := categoria (upper n); valuta := valuta q |}.
Proof.
  intros H. remember (Trovato q) as r eqn:Er.
  induction H as [|c l t t' r Ht H IH|c l t q0 Ht].
  - discriminate.
  - destruct (IH Er) as (l1 & l2 & t1 & df & ri & p & n & -> & Hs & -> & Hp & Hm & Hq).
    exists (c :: l1), l2, (t ++ t1)%list, df, ri, p, n.
    repeat split; try assumption.
    + apply esec_salta; assumption.
    + rewrite <- app_assoc. reflexivity.
  - injection Er as ->. inversion Ht; subst.
    exists [], l, [], df, ri, p, n. simpl.
    repeat split; try assumption; try constructor.
    destruct (metadati_da c ri) as [no va]. simpl in *. congruence.
Qed.

Lemma tentati_app (t1 t2 : list (event Price)) :
  tentati (t1 ++ t2) = (tentati t1 ++ tentati t2)%list.
Proof. apply flat_map_app. Qed.

Lemma richieste_history_app (t1 t2 : list (event Price)) :
  richieste_history (t1 ++ t2) = (richieste_history t1 ++ richieste_history t2)%list.
Proof. apply flat_map_app. Qed.

Lemma richieste_info_app (t1 t2 : list (event Price)) :
  richieste_info (t1 ++ t2) = (richieste_info t1 ++ richieste_info t2)%list.
Proof. apply flat_map_app. Qed.

Lemma tentativo_tentati c (t : list (event Price)) o : tentativo c t o -> tentati t = [c].
Proof. intros H. destruct H; reflexivity. Qed.

Lemma tentativo_history c (t : list (event Price)) o :
  tentativo c t o -> richieste_history t = [] \/ richieste_history t = [c].
Proof. intros H. destruct H; simpl; auto. Qed.

(** Skipping every candidate attempts each of them, in order. *)
Lemma saltati_tentati l (t : list (event Price)) : esecuzione l t NonTrovato -> tentati t = l.
Proof.
  intros H. remember NonTrovato as r eqn:Er.
  induction H as [|c l t t' r Ht _ IH|c l t q Ht].
  - reflexivity.
  - rewrite tentati_app, (IH Er), (tentativo_tentati _ _ _ Ht). reflexivity.
  - discriminate.
Qed.

(** The price-history requests follow the candidate order and skip none
    twice: they form a sublist of the candidates. *)
Lemma esecuzione_history_sublist l (t : list (event Price)) r :
  esecuzione l t r -> sublist (richieste_history t) l.
Proof.
  intros H. induction H as [|c l t t' r Ht _ IH|c l t q Ht].
  - constructor.
  - rewrite richieste_history_app.
    destruct (tentativo_history _ _ _ Ht) as [-> | ->]; simpl.
    + apply sublist_cons. exact IH.
    + apply sublist_skip. exact IH.
  - destruct (tentativo_history _ _ _ Ht) as [-> | ->].
    + apply sublist_nil_l.
    + apply sublist_skip, sublist_nil_l.
Qed.

End Esecuzione.

Section Risultati.

Context {Price St : Type}.
Variable P : Provider Price St.

Lemma tentativo_periodo c t o c' per rh :
  tentativo (Price := Price) c t o -> In (EvHistory c' per rh) t -> per = "5d".
Proof.
  intros H Hin. destruct H; simpl in Hin;
    repeat (destruct Hin as [Hin|Hin]; [try discriminate; injection Hin as _ <- _; reflexivity|]);
    contradiction.
Qed.

Lemma esecuzione_periodo l t r c per rh :
  esecuzione (Price := Price) l t r -> In (EvHistory c per rh) t -> per = "5d".
Proof.
  intros H. induction H as [|c0 l t t' r Ht _ IH|c0 l t q Ht]; intros Hin.
  - contradiction.
  - apply in_app_or in Hin. destruct Hin as [Hin|Hin]; [|exact (IH Hin)].
    eapply tentativo_periodo; eassumption.
  - eapply tentativo_periodo; eassumption.
Qed.

Lemma esecuzione_assente l t r :
  esecuzione (Price := Price) l t r ->
  (forall c per rh, In (EvHistory c per rh) t -> storia_assente rh) ->
  r = NonTrovato.
Proof.
  intros H. induction H as [|c0 l t t' r Ht _ IH|c0 l t q Ht]; intros Ha.
  - reflexivity.
  - apply IH. intros c per rh Hin. apply (Ha c per rh), in_or_app. right. exact Hin.
  - exfalso. inversion Ht as [| | | |df ri p n Hp Hn]; subst.
    assert (Hd : storia_assente (Ok df)) by (apply (Ha c0 "5d"); simpl; auto).
    simpl in Hd. rewrite Hd in Hp. discriminate.
Qed.

(** The run of the resolver, with its relation to the provider. *)
Lemma trova_prezzo_robusto_run (ticker_input : string) (s : St) :
  exists r t s',
    trova_prezzo_robusto P ticker_input s = (Ok r, t, s') /\
    esecuzione (possibili_ticker ticker_input) t r /\
    Forall (genuino P) t.
Proof.
  unfold trova_prezzo_robusto.
  pose proof (ciclo_genuino P (possibili_ticker ticker_input) s) as Hg.
  destruct (ciclo_esecuzione P (possibili_ticker ticker_input) s) as (r & t & s' & Hc & He).
  rewrite Hc in Hg. exists r, t, s'. auto.
Qed.

(** C2. Whatever the provider does, the resolver returns normally: no
    exception reaches the caller.  If for each of the six candidates the
    provider only ever answers the price-history request with an empty
    table or with an error, the value returned is [{"trovato": False}]. *)
Theorem non_trovato_senza_eccezioni (ticker_input : string) (s : St) :
  (exists r t s', trova_prezzo_robusto P ticker_input s = (Ok r, t, s')) /\
  ((forall c s0, In c (possibili_ticker ticker_input) ->
                 storia_assente (fst (history P c "5d" s0))) ->
   exists t s', trova_prezzo_robusto P ticker_input s = (Ok NonTrovato, t, s')).
Proof.
  destruct (trova_prezzo_robusto_run ticker_input s) as (r & t & s' & Hr & He & Hg).
  split; [eauto|].
  intros Ha. exists t, s'. rewrite Hr. repeat f_equal.
  apply (esecuzione_assente _ _ _ He).
  intros c per rh Hin.
  assert (per = "5d") as -> by (eapply esecuzione_periodo; eassumption).
  destruct (proj1 (List.Forall_forall _ _) Hg _ Hin) as [s0 <-].
  apply Ha. apply (esecuzione_simbolo _ _ _ _ He Hin).
Qed.

Lemma iloc_last_spec {A} (l : list A) (x : A) :
  iloc_last l = Ok x <-> exists l', l = (l' ++ [x])%list.
Proof.
  split.
  - induction l as [|a l IH]; [discriminate|].
    destruct l as [|b l].
    + intros H. injection H as ->. exists []. reflexivity.
    + intros H. destruct (IH H) as [l' Hl']. exists (a :: l'). rewrite Hl'. reflexivity.
  - intros [l' ->]. induction l' as [|a l' IH]; [reflexivity|].
    simpl. destruct (l' ++ [x])%list eqn:E; [destruct l'; discriminate|exact IH].
Qed.

Lemma categoria_spec_eq (n : string) : categoria n = categoria_spec n.
Proof.
  unfold categoria, categoria_spec, tabella_categorie, prima_riga, existsb.
  rewrite !orb_false_r. reflexivity.
Qed.

(** A successful run over pairwise distinct candidates: every call that
    names the matched symbol belongs to the last three. *)
Lemma esecuzione_Trovato_unico l t q :
  esecuzione (Price := Price) l t (Trovato q) -> List.NoDup l ->
  exists t1 df ri p n,
    t = (t1 ++ [EvTicker (simbolo q) (Ok tt); EvHistory (simbolo q) "5d" (Ok df);
                EvInfo (simbolo q) ri])%list /\
    (forall c ri', In (EvInfo c ri') t1 -> forall m, fst (metadati_da c ri') <> PyStr m) /\
    (forall ev, In ev t1 -> simbolo_di ev <> simbolo q) /\
    iloc_last (Close df) = Ok p /\
    metadati_da (simbolo q) ri = (PyStr n, valuta q) /\
    prezzo q = p /\ nome q = PyStr n /\ cat q = categoria (upper n).
Proof.
  intros He Hnd.
  destruct (esecuzione_Trovato _ _ _ He)
    as (l1 & l2 & t1 & df & ri & p & n & -> & Hs & -> & Hp & Hm & Hq).
  exists t1, df, ri, p, n. repeat split; try assumption.
  - intros c ri' Hin. eapply saltati_info; eassumption.
  - intros ev Hin Heq.
    apply (esecuzione_simbolo _ _ _ _ Hs) in Hin. rewrite Heq in Hin.
    apply List.NoDup_remove_2 in Hnd. apply Hnd, in_or_app. left. exact Hin.
  - rewrite Hq. reflexivity.
  - rewrite Hq. reflexivity.
  - rewrite Hq. reflexivity.
Qed.

(** C3. In every result with [trovato] true the display name is a string
    and the category is decided on the upper-cased name by the fixed
    priority: MSCI WORLD or GLOBAL gives the world-equity label; else
    S&P 500 or USA the US-equity label; else BOND the fixed-income label;
    else EMERGING the emerging-markets label; else the generic label.  It
    is the label of the first matching row of the ordered keyword table,
    no name has two categories, and MSCI WORLD EMERGING MARKETS FUND is
    world equity. *)
Theorem categoria_per_priorita (ticker_input : string) (s : St) :
  (exists r t s',
     trova_prezzo_robusto P ticker_input s = (Ok r, t, s') /\
     forall q, r = Trovato q ->
       exists n, nome q = PyStr n /\
                 classifica (upper n) (cat q) /\
                 cat q = categoria_spec (upper n)) /\
  (forall n c1 c2, classifica n c1 -> classifica n c2 -> c1 = c2) /\
  classifica (upper "MSCI WORLD EMERGING MARKETS FUND") cat_mondo.
Proof.
  split; [|split].
  - destruct (trova_prezzo_robusto_run ticker_input s) as (r & t & s' & Hr & He & _).
    exists r, t, s'. split; [exact Hr|]. intros q ->.
    destruct (esecuzione_Trovato_unico _ _ _ He (possibili_ticker_NoDup _))
      as (t1 & df & ri & p & n & _ & _ & _ & _ & _ & _ & Hn & Hc).
    exists n. split; [exact Hn|]. rewrite Hc. split.
    + apply categoria_classifica.
    + apply categoria_spec_eq.
  - intros n c1 c2 H1 H2.
    rewrite (classifica_categoria _ _ H1), (classifica_categoria _ _ H2). reflexivity.
  - apply (categoria_classifica (upper "MSCI WORLD EMERGING MARKETS FUND")).
Qed.

(** C5. In every result with [trovato] true, the provider answered the
    5-day price-history request for the returned symbol exactly once, with
    a table whose last closing price is the returned price. *)
Theorem prezzo_ultima_chiusura (ticker_input : string) (s : St) :
  exists r t s',
    trova_prezzo_robusto P ticker_input s = (Ok r, t, s') /\
    forall q, r = Trovato q ->
      exists df bars,
        In (EvHistory (simbolo q) "5d" (Ok df)) t /\
        (exists s0, fst (history P (simbolo q) "5d" s0) = Ok df) /\
        Close df = (bars ++ [prezzo q])%list /\
        forall per rh, In (EvHistory (simbolo q) per rh) t -> per = "5d" /\ rh = Ok df.
Proof.
  destruct (trova_prezzo_robusto_run ticker_input s) as (r & t & s' & Hr & He & Hg).
  exists r, t, s'. split; [exact Hr|]. intros q ->.
  destruct (esecuzione_Trovato_unico _ _ _ He (possibili_ticker_NoDup _))
    as (t1 & df & ri & p & n & Ht & _ & Hu & Hp & _ & Hq & _ & _).
  apply iloc_last_spec in Hp. destruct Hp as [bars Hb].
  assert (Hin : In (EvHistory (simbolo q) "5d" (Ok df)) t).
  { rewrite Ht. apply in_or_app. right. simpl. auto. }
  exists df, bars.
  split; [exact Hin|].
  split; [exact (proj1 (List.Forall_forall _ _) Hg _ Hin)|].
  split; [rewrite Hq; exact Hb|].
  intros per rh Hh. split; [eapply esecuzione_periodo; eassumption|].
  rewrite Ht in Hh. apply in_app_or in Hh. destruct Hh as [Hh|Hh].
  - exfalso. exact (Hu _ Hh eq_refl).
  - simpl in Hh. destruct Hh as [Hh|[Hh|[Hh|[]]]]; try discriminate.
    injection Hh as _ ->. reflexivity.
Qed.

(** Where the metadata response of a candidate can sit in a run, and what
    follows from a display name that is a string. *)
Lemma esecuzione_info_str l t r c ri n :
  esecuzione (Price := Price) l t r -> List.NoDup l ->
  In (EvInfo c ri) t -> fst (metadati_da c ri) = PyStr n ->
  exists q df,
    r = Trovato q /\ simbolo q = c /\
    nome q = PyStr n /\ valuta q = snd (metadati_da c ri) /\
    cat q = categoria (upper n) /\
    iloc_last (Close df) = Ok (prezzo q) /\
    forall per rh, In (EvHistory c per rh) t -> rh = Ok df.
Proof.
  intros He Hnd Hin Hn. destruct r as [|q].
  - exfalso. exact (saltati_info _ _ _ _ He Hin n Hn).
  - destruct (esecuzione_Trovato_unico _ _ _ He Hnd)
      as (t1 & df & ri0 & p & m & -> & Hsk & Hu & Hp & Hm & Hq & Hnome & Hcat).
    apply in_app_or in Hin. destruct Hin as [Hin|Hin].
    { exfalso. exact (Hsk _ _ Hin n Hn). }
    simpl in Hin. destruct Hin as [Hin|[Hin|[Hin|[]]]]; try discriminate.
    injection Hin as <- <-.
    rewrite Hm in Hn. simpl in Hn. injection Hn as ->.
    exists q, df. repeat split; try assumption.
    + rewrite Hm. reflexivity.
    + rewrite Hq. exact Hp.
    + intros per rh Hh. apply in_app_or in Hh. destruct Hh as [Hh|Hh].
      * exfalso. exact (Hu _ Hh eq_refl).
      * simpl in Hh. destruct Hh as [Hh|[Hh|[Hh|[]]]]; try discriminate.
        injection Hh as _ ->. reflexivity.
Qed.

(** C4. Take any run in which the 5-day price history of a candidate came
    back as a table and the metadata fetch for the same candidate raised.
    Then the run returns normally with [trovato] true for that candidate:
    the price is the last closing price of that table, the name is the
    candidate symbol and the currency is the question-mark sentinel. *)
Theorem ripiego_metadati_in_errore
    (ticker_input : string) (s : St)
    (r : py_result (Risultato Price)) (t : list (event Price)) (s' : St)
    (c : string) (df : DataFrame Price) (e : exn) :
  trova_prezzo_robusto P ticker_input s = (r, t, s') ->
  In (EvHistory c "5d" (Ok df)) t ->
  In (EvInfo c (Raises e)) t ->
  exists bars p,
    Close df = (bars ++ [p])%list /\
    r = Ok (Trovato {| simbolo := c; prezzo := p; nome := PyStr c;
                       cat := categoria (upper c); valuta := PyStr "?" |}).
Proof.
  intros Hrun Hh Hi.
  destruct (trova_prezzo_robusto_run ticker_input s) as (r0 & t0 & s0 & Hr & He & _).
  rewrite Hr in Hrun. injection Hrun as <- <- <-.
  destruct (esecuzione_info_str _ _ _ c (Raises e) c He (possibili_ticker_NoDup _) Hi eq_refl)
    as (q & df0 & -> & Hs & Hn & Hv & Hc & Hp & Hu).
  specialize (Hu _ _ Hh). injection Hu as <-.
  apply iloc_last_spec in Hp. destruct Hp as [bars Hb].
  exists bars, (prezzo q). split; [exact Hb|].
  destruct q as [qs qp qn qc qv]. simpl in *. subst. reflexivity.
Qed.


Lemma tenta_risposte_fisse (c : string) (s1 s2 : St) :
  risposte_fisse P -> fst (tenta P c s1) = fst (tenta P c s2).
Proof.
  intros (Ht & Hh & Hi). rewrite !tenta_eq.
  pose proof (Ht c s1 s2) as E1.
  destruct (Ticker P c s1) as [r1 u1], (Ticker P c s2) as [r2 u2].
  simpl in E1. subst r2. destruct r1 as [u|e]; [|reflexivity].
  pose proof (Hh c "5d" u1 u2) as E2.
  destruct (history P c "5d" u1) as [h1 v1], (history P c "5d" u2) as [h2 v2].
  simpl in E2. subst h2. destruct h1 as [df|e]; [|reflexivity].
  destruct (iloc_last (Close df)); [|reflexivity].
  cbv zeta. rewrite (Hi c v1 v2).
  destruct (fst (metadati_da c (fst (info P c v2)))); reflexivity.
Qed.

Lemma ciclo_risposte_fisse (l : list string) (s1 s2 : St) :
  risposte_fisse P -> fst (ciclo P l s1) = fst (ciclo P l s2).
Proof.
  intros H. revert s1 s2. induction l as [|c l IH]; intros s1 s2; [reflexivity|].
  simpl. unfold bind.
  pose proof (tenta_risposte_fisse c s1 s2 H) as E.
  destruct (tenta P c s1) as [[o1 t1] u1], (tenta P c s2) as [[o2 t2] u2].
  simpl in E. injection E as <- <-.
  destruct o1 as [[q|]|e]; [reflexivity| |reflexivity].
  specialize (IH u1 u2).
  destruct (ciclo P l u1) as [[r1 w1] x1], (ciclo P l u2) as [[r2 w2] x2].
  simpl in IH. injection IH as <- <-. reflexivity.
Qed.

(** C9. Against a provider whose responses do not depend on its state, the
    result and the calls of the resolver do not depend on the state it is
    started in; in particular a second call, started in the state the
    first one left behind, gives the same result as the first. *)
Theorem stesso_risultato_due_volte (ticker_input : string) (s : St) :
  risposte_fisse P ->
  (forall s2, fst (trova_prezzo_robusto P ticker_input s2) =
              fst (trova_prezzo_robusto P ticker_input s)) /\
  fst (trova_prezzo_robusto P ticker_input (snd (trova_prezzo_robusto P ticker_input s))) =
  fst (trova_prezzo_robusto P ticker_input s).
Proof.
  intros H. split; [intros s2|]; apply ciclo_risposte_fisse, H.
Qed.

(** C7. The line read by [main] is upper-cased and stripped before the
    candidates are built: the root handed to the resolver is the upper-cased
    line without the white space on either side, it has no lower-case
    letter left and no white space left to strip, and the lines [ mwrd ]
    (with a space on each side) and [MWRD] give the same root, the same
    candidate list and the same run. *)
Theorem main_normalizza (s : St) :
  (forall riga,
     main P riga s = trova_prezzo_robusto P (strip (upper riga)) s /\
     (exists a b, upper riga = a ++ strip (upper riga) ++ b /\
                  tutti_spazi a = true /\ tutti_spazi b = true) /\
     upper (strip (upper riga)) = strip (upper riga) /\
     strip (strip (upper riga)) = strip (upper riga)) /\
  strip (upper " mwrd ") = "MWRD" /\
  strip (upper "MWRD") = "MWRD" /\
  possibili_ticker (strip (upper " mwrd ")) = possibili_ticker (strip (upper "MWRD")) /\
  main P " mwrd " s = main P "MWRD" s.
Proof.
  split; [|repeat split; reflexivity].
  intros riga. split; [reflexivity|]. split; [apply strip_app|]. split.
  - rewrite upper_strip, upper_idem. reflexivity.
  - apply strip_idem.
Qed.

End Risultati.

(** The resolver itself does no normalising: called directly on the raw
    line it builds other candidates. *)
Lemma possibili_ticker_grezzo :
  possibili_ticker " mwrd " <> possibili_ticker "MWRD".
Proof. discriminate. Qed.

(** ** Runs in which every long name is a string *)

Section NomiTestuali.

Context {Price St : Type}.
Variable P : Provider Price St.

Lemma nomi_testuali_str (t : list (event Price)) c ri :
  nomi_testuali t -> In (EvInfo c ri) t -> exists n, fst (metadati_da c ri) = PyStr n.
Proof.
  intros H Hin. destruct ri as [d|e]; simpl; [|eauto].
  unfold dict_get. destruct (d !! "longName") as [v|] eqn:E; [|eauto].
  destruct (H _ _ _ Hin E) as [n ->]. eauto.
Qed.

Lemma saltati_history l t c per rh :
  esecuzione (Price := Price) l t NonTrovato -> In (EvHistory c per rh) t ->
  storia_assente rh \/
  exists ri, In (EvInfo c ri) t /\ forall n, fst (metadati_da c ri) <> PyStr n.
Proof.
  intros H. remember NonTrovato as r eqn:Er.
  induction H as [|c0 l t t' r Ht _ IH|c0 l t q Ht]; intros Hin.
  - contradiction.
  - apply in_app_or in Hin. destruct Hin as [Hin|Hin].
    + assert (c = c0) as -> by (apply (tentativo_simbolo _ _ _ _ Ht Hin)).
      destruct (tentativo_None_history _ _ _ _ Ht Hin) as [Ha|(ri & Hi & Hn)]; [auto|].
      right. exists ri. split; [apply in_or_app; auto|exact Hn].
    + destruct (IH Er Hin) as [Ha|(ri & Hi & Hn)]; [auto|].
      right. exists ri. split; [apply in_or_app; auto|exact Hn].
  - discriminate.
Qed.

Lemma richieste_info_nil (t : list (event Price)) :
  (forall c ri, ~ In (EvInfo c ri) t) -> richieste_info t = [].
Proof.
  induction t as [|ev t IH]; intros H; [reflexivity|].
  destruct ev as [c r|c per r|c r].
  - apply IH. intros c' ri Hin. apply (H c' ri). right. exact Hin.
  - apply IH. intros c' ri Hin. apply (H c' ri). right. exact Hin.
  - exfalso. apply (H c r). left. reflexivity.
Qed.

(** The candidates are attempted in list order, with no gap, up to the
    returned one; the price-history requests are a sublist of the
    candidates, so there are at most six and none is repeated. *)
Lemma tentativi_in_ordine (ticker_input : string) (s : St) :
  exists r t s',
    trova_prezzo_robusto P ticker_input s = (Ok r, t, s') /\
    (exists resto, possibili_ticker ticker_input = (tentati t ++ resto)%list /\
                   (r = NonTrovato -> resto = [])) /\
    (forall q, r = Trovato q -> exists prima, tentati t = (prima ++ [simbolo q])%list) /\
    sublist (richieste_history t) (possibili_ticker ticker_input) /\
    List.NoDup (richieste_history t) /\
    (List.length (richieste_history t) <= 6)%nat.
Proof.
  destruct (trova_prezzo_robusto_run P ticker_input s) as (r & t & s' & Hr & He & _).
  exists r, t, s'. split; [exact Hr|].
  pose proof (esecuzione_history_sublist _ _ _ He) as Hsub.
  assert (Hord : (exists resto, possibili_ticker ticker_input = (tentati t ++ resto)%list /\
                                (r = NonTrovato -> resto = [])) /\
                 (forall q, r = Trovato q -> exists prima, tentati t = (prima ++ [simbolo q])%list)).
  { destruct r as [|q].
    - split; [|discriminate]. exists []. rewrite app_nil_r.
      split; [symmetry; apply (saltati_tentati _ _ He)|reflexivity].
    - destruct (esecuzione_Trovato _ _ _ He)
        as (l1 & l2 & t1 & df & ri & p & n & Hl & Hs & -> & _).
      rewrite tentati_app, (saltati_tentati _ _ Hs). simpl. split.
      + exists l2. split; [|discriminate]. rewrite Hl, <- app_assoc. reflexivity.
      + intros q' Hq. injection Hq as <-. exists l1. reflexivity. }
  destruct Hord as [Ho1 Ho2]. repeat split; try assumption.
  - apply NoDup_ListNoDup. refine (sublist_NoDup _ _ _ Hsub).
    apply NoDup_ListNoDup, possibili_ticker_NoDup.
  - apply sublist_length in Hsub. exact Hsub.
Qed.

(** When every long name is a string, the returned candidate is the one
    whose price history came back non-empty, no other candidate had any,
    and metadata is requested for the returned candidate alone. *)
Lemma con_nomi_testuali (ticker_input : string) (s : St) :
  exists r t s',
    trova_prezzo_robusto P ticker_input s = (Ok r, t, s') /\
    (nomi_testuali t ->
     (forall c per df, In (EvHistory c per (Ok df)) t -> Close df <> [] ->
        exists q, r = Trovato q /\ simbolo q = c) /\
     (r = NonTrovato -> richieste_info t = []) /\
     (forall q, r = Trovato q -> richieste_info t = [simbolo q])).
Proof.
  destruct (trova_prezzo_robusto_run P ticker_input s) as (r & t & s' & Hr & He & _).
  pose proof (possibili_ticker_NoDup ticker_input) as Hnd.
  exists r, t, s'. split; [exact Hr|]. intros Hnt.
  assert (Hno : forall t1 : list (event Price),
                  (forall c ri, In (EvInfo c ri) t1 -> In (EvInfo c ri) t) ->
                  (forall c ri, In (EvInfo c ri) t1 ->
                     forall m, fst (metadati_da c ri) <> PyStr m) ->
                  forall c ri, ~ In (EvInfo c ri) t1).
  { intros t1 Hsub Hsk c ri Hin.
    destruct (nomi_testuali_str _ _ _ Hnt (Hsub _ _ Hin)) as [n Hn].
    exact (Hsk _ _ Hin n Hn). }
  repeat split.
  - intros c per df Hin Hne. destruct r as [|q].
    + exfalso. destruct (saltati_history _ _ _ _ _ He Hin) as [Ha|(ri & Hi & Hn)].
      * exact (Hne Ha).
      * destruct (nomi_testuali_str _ _ _ Hnt Hi) as [n Hn']. exact (Hn n Hn').
    + exists q. split; [reflexivity|].
      destruct (esecuzione_Trovato _ _ _ He)
        as (l1 & l2 & t1 & df0 & ri & p & n & Hl & Hs & Ht & _).
      rewrite Ht in Hin. apply in_app_or in Hin. destruct Hin as [Hin|Hin].
      * exfalso. destruct (saltati_history _ _ _ _ _ Hs Hin) as [Ha|(ri' & Hi & Hn)].
        -- exact (Hne Ha).
        -- assert (Hi' : In (EvInfo c ri') t) by (rewrite Ht; apply in_or_app; auto).
           destruct (nomi_testuali_str _ _ _ Hnt Hi') as [n' Hn']. exact (Hn n' Hn').
      * simpl in Hin. destruct Hin as [Hin|[Hin|[Hin|[]]]]; try discriminate.
        injection Hin as -> _ _. reflexivity.
  - intros ->. apply richieste_info_nil. apply (Hno t); [auto|].
    intros c ri Hin. eapply saltati_info; eassumption.
  - intros q ->.
    destruct (esecuzione_Trovato_unico _ _ _ He Hnd)
      as (t1 & df & ri & p & n & Ht & Hsk & _).
    rewrite Ht, richieste_info_app.
    rewrite (richieste_info_nil t1); [reflexivity|].
    apply Hno; [|exact Hsk].
    intros c ri' Hin. rewrite Ht. apply in_or_app. auto.
Qed.

End NomiTestuali.

(** ** The resolver on the stubs *)

(** C1. The stub has price history for the third candidate only and stores
    [None] under the long-name key.  The resolver does not return MWRD.DE:
    it goes on to ask the three later candidates for their history and
    reports that nothing was found. *)
Theorem terzo_candidato_nome_nullo :
  exists t s',
    trova_prezzo_robusto (stub (storia_solo ["MWRD.DE"]) info_nome_nullo) "MWRD" 0
      = (Ok NonTrovato, t, s') /\
    In (EvHistory "MWRD.DE" "5d" (barre [9790; 9812; 9835]%Z)) t /\
    richieste_history t = possibili_ticker "MWRD".
Proof.
  eexists _, _. split; [vm_compute; reflexivity|].
  split; [simpl; auto 10 | reflexivity].
Qed.

(** C6. The first candidate has a non-empty price history, and [None]
    under the long-name key; no other candidate has data.  The result has
    [trovato] false although a candidate produced price history. *)
Theorem storia_presente_ma_non_trovato :
  exists r t s',
    trova_prezzo_robusto (stub (storia_solo ["MWRD.MI"]) info_nome_nullo) "MWRD" 0
      = (Ok r, t, s') /\
    trovato r = false /\
    exists df, In (EvHistory "MWRD.MI" "5d" (Ok df)) t /\ Close df <> [].
Proof.
  eexists _, _, _. split; [vm_compute; reflexivity|].
  split; [reflexivity|].
  eexists. split; [simpl; right; left; reflexivity | discriminate].
Qed.

(** C8. Milan, Paris and Frankfurt all have price history; Milan and Paris
    store [None] under the long-name key.  The resolver returns MWRD.DE
    after three metadata requests, two of them for candidates it did not
    return. *)
Theorem tre_richieste_di_metadati :
  exists q t s',
    trova_prezzo_robusto
      (stub (storia_solo ["MWRD.MI"; "MWRD.PA"; "MWRD.DE"]) info_nome_nullo_MI_PA) "MWRD" 0
      = (Ok (Trovato q), t, s') /\
    simbolo q = "MWRD.DE" /\
    richieste_info t = ["MWRD.MI"; "MWRD.PA"; "MWRD.DE"].
Proof.
  eexists _, _, _. split; [vm_compute; reflexivity|].
  split; reflexivity.
Qed.

(** *** The theorems at concrete stubs *)

Lemma non_trovato_senza_eccezioni_witness :
  (forall c s0, In c (possibili_ticker "MWRD") ->
     storia_assente (fst (history (stub storia_nessuna info_completa) c "5d" s0))) /\
  exists t s',
    trova_prezzo_robusto (stub storia_nessuna info_completa) "MWRD" 0
      = (Ok NonTrovato, t, s').
Proof.
  assert (H : forall c s0, In c (possibili_ticker "MWRD") ->
     storia_assente (fst (history (stub storia_nessuna info_completa) c "5d" s0))).
  { intros c s0 Hin. simpl in Hin.
    destruct Hin as [<-|[<-|[<-|[<-|[<-|[<-|[]]]]]]]; vm_compute; auto. }
  split; [exact H|].
  exact (proj2 (non_trovato_senza_eccezioni (stub storia_nessuna info_completa) "MWRD" 0) H).
Defined.

Lemma categoria_per_priorita_witness :
  exists q n,
    fst (fst (trova_prezzo_robusto (stub (storia_solo ["MWRD.DE"]) info_completa) "MWRD" 0))
      = Ok (Trovato q) /\
    nome q = PyStr n /\ classifica (upper n) (cat q) /\ cat q = cat_mondo.
Proof.
  destruct (proj1 (categoria_per_priorita (stub (storia_solo ["MWRD.DE"]) info_completa) "MWRD" 0))
    as (r & t & s' & Hr & Hq).
  rewrite Hr. vm_compute in Hr. injection Hr as <- _ _.
  destruct (Hq _ eq_refl) as (n & Hn & Hc & _).
  eexists _, n. split; [reflexivity|]. split; [exact Hn|]. split; [exact Hc|reflexivity].
Defined.

Lemma ripiego_metadati_in_errore_witness :
  exists bars p,
    [9790; 9812; 9835]%Z = (bars ++ [p])%list /\
    Ok (Trovato {| simbolo := "MWRD.DE"; prezzo := 9835%Z; nome := PyStr "MWRD.DE";
                   cat := cat_generico; valuta := PyStr "?" |}) =
    Ok (Trovato {| simbolo := "MWRD.DE"; prezzo := p; nome := PyStr "MWRD.DE";
                   cat := categoria (upper "MWRD.DE"); valuta := PyStr "?" |}).
Proof.
  eapply (ripiego_metadati_in_errore (stub (storia_solo ["MWRD.DE"]) info_errore) "MWRD" 0
            _ _ _ "MWRD.DE" {| Close := [9790; 9812; 9835]%Z |} (ProviderError "401")).
  - vm_compute. reflexivity.
  - simpl. auto 10.
  - simpl. auto 10.
Defined.

Lemma prezzo_ultima_chiusura_witness :
  exists q df bars,
    fst (fst (trova_prezzo_robusto (stub (storia_solo ["MWRD.DE"]) info_completa) "MWRD" 0))
      = Ok (Trovato q) /\
    Close df = (bars ++ [prezzo q])%list /\ prezzo q = 9835%Z.
Proof.
  destruct (prezzo_ultima_chiusura (stub (storia_solo ["MWRD.DE"]) info_completa) "MWRD" 0)
    as (r & t & s' & Hr & Hq).
  rewrite Hr. vm_compute in Hr. injection Hr as <- _ _.
  destruct (Hq _ eq_refl) as (df & bars & _ & _ & Hb & _).
  eexists _, df, bars. split; [reflexivity|]. split; [exact Hb|reflexivity].
Defined.

Lemma stesso_risultato_due_volte_witness :
  fst (trova_prezzo_robusto (stub (storia_solo ["MWRD.DE"]) info_completa) "MWRD"
         (snd (trova_prezzo_robusto (stub (storia_solo ["MWRD.DE"]) info_completa) "MWRD" 0))) =
  fst (trova_prezzo_robusto (stub (storia_solo ["MWRD.DE"]) info_completa) "MWRD" 0).
Proof.
  apply (stesso_risultato_due_volte (stub (storia_solo ["MWRD.DE"]) info_completa) "MWRD" 0).
  repeat split; reflexivity.
Defined.


(** ** Further properties of the resolver *)

Section Chiamate.

Context {Price St : Type}.
Variable P : Provider Price St.

Lemma append_nil_r (s : string) : s ++ "" = s.
Proof.
  induction s as [|c s IH]; [reflexivity|]. rewrite append_cons, IH. reflexivity.
Qed.

(** X1. For every root, the empty one included, the six candidates are
    pairwise distinct, and each of them is the root followed by a suffix. *)
Theorem candidati_distinti (ticker_input : string) :
  List.NoDup (possibili_ticker ticker_input) /\
  forall c, In c (possibili_ticker ticker_input) <->
            exists suff, In suff [".MI"; ".PA"; ".DE"; ".AS"; ".L"; ""] /\
                         c = ticker_input ++ suff.
Proof.
  split; [apply possibili_ticker_NoDup|].
  intros c. unfold possibili_ticker. split.
  - intros Hin. simpl in Hin.
    destruct Hin as [<-|[<-|[<-|[<-|[<-|[<-|[]]]]]]];
      [exists ".MI"|exists ".PA"|exists ".DE"|exists ".AS"|exists ".L"|exists ""];
      (split; [simpl; auto 10|]); try reflexivity.
    symmetry. apply append_nil_r.
  - intros (suff & Hin & ->). simpl in Hin.
    destruct Hin as [<-|[<-|[<-|[<-|[<-|[<-|[]]]]]]]; simpl; auto 10.
    rewrite append_nil_r. auto 10.
Qed.

(** The calls of one iteration, by shape. *)
Lemma tentativo_forma c (t : list (event Price)) o :
  tentativo c t o ->
  (exists e, t = [EvTicker c (Raises e)]) \/
  (exists rh, t = [EvTicker c (Ok tt); EvHistory c "5d" rh] /\ storia_assente rh) \/
  (exists df ri, t = [EvTicker c (Ok tt); EvHistory c "5d" (Ok df); EvInfo c ri] /\
                 Close df <> []).
Proof.
  intros H. destruct H.
  - left. eauto.
  - right. left. eexists. split; [reflexivity|exact I].
  - right. left. eexists. split; [reflexivity|assumption].
  - right. right. eauto.
  - right. right. exists df, ri. split; [reflexivity|].
    intros E. rewrite E in H. discriminate.
Qed.

Lemma tentativo_lunghezza c (t : list (event Price)) o :
  tentativo c t o -> (1 <= List.length t <= 3)%nat.
Proof.
  intros H. destruct (tentativo_forma _ _ _ H) as [[e ->]|[(rh & -> & _)|(df & ri & -> & _)]];
    simpl; lia.
Qed.

Lemma tentativo_info c (t : list (event Price)) o :
  tentativo c t o ->
  richieste_info t = [] \/ (richieste_info t = [c] /\ richieste_history t = [c]).
Proof.
  intros H. destruct (tentativo_forma _ _ _ H) as [[e ->]|[(rh & -> & _)|(df & ri & -> & _)]];
    simpl; auto.
Qed.

(** A metadata request comes right after a non-empty price history of the
    same symbol, which comes right after a successful constructor call. *)
Lemma esecuzione_info_dopo_history l (t : list (event Price)) r c ri :
  esecuzione l t r -> In (EvInfo c ri) t ->
  exists t1 t2 df,
    t = (t1 ++ [EvTicker c (Ok tt); EvHistory c "5d" (Ok df); EvInfo c ri] ++ t2)%list /\
    Close df <> [].
Proof.
  intros H. induction H as [|c0 l t t' r Ht _ IH|c0 l t q Ht]; intros Hin.
  - contradiction.
  - apply in_app_or in Hin. destruct Hin as [Hin|Hin].
    + destruct (tentativo_forma _ _ _ Ht) as [[e ->]|[(rh & -> & _)|(df & ri0 & -> & Hne)]];
        simpl in Hin;
        repeat (destruct Hin as [Hin|Hin]; [try discriminate|]); try contradiction.
      injection Hin as -> ->. exists [], t', df. split; [reflexivity|exact Hne].
    + destruct (IH Hin) as (t1 & t2 & df & -> & Hne).
      exists (t ++ t1)%list, t2, df. split; [|exact Hne].
      rewrite <- app_assoc. reflexivity.
  - destruct (tentativo_forma _ _ _ Ht) as [[e ->]|[(rh & -> & _)|(df & ri0 & -> & Hne)]];
      simpl in Hin;
      repeat (destruct Hin as [Hin|Hin]; [try discriminate|]); try contradiction.
    injection Hin as -> ->. exists [], [], df. split; [reflexivity|exact Hne].
Qed.

Lemma esecuzione_history_dopo_Ticker l (t : list (event Price)) r c per rh :
  esecuzione l t r -> In (EvHistory c per rh) t ->
  exists t1 t2, t = (t1 ++ [EvTicker c (Ok tt); EvHistory c per rh] ++ t2)%list.
Proof.
  intros H. induction H as [|c0 l t t' r Ht _ IH|c0 l t q Ht]; intros Hin.
  - contradiction.
  - apply in_app_or in Hin. destruct Hin as [Hin|Hin].
    + destruct (tentativo_forma _ _ _ Ht) as [[e ->]|[(rh0 & -> & _)|(df & ri0 & -> & Hne)]];
        simpl in Hin;
        repeat (destruct Hin as [Hin|Hin]; [try discriminate|]); try contradiction.
      * injection Hin as -> -> ->. exists [], t'. reflexivity.
      * injection Hin as -> -> ->. exists [], (EvInfo c ri0 :: t'). reflexivity.
    + destruct (IH Hin) as (t1 & t2 & ->).
      exists (t ++ t1)%list, t2. rewrite <- app_assoc. reflexivity.
  - destruct (tentativo_forma _ _ _ Ht) as [[e ->]|[(rh0 & -> & _)|(df & ri0 & -> & Hne)]];
      simpl in Hin;
      repeat (destruct Hin as [Hin|Hin]; [try discriminate|]); try contradiction.
    + injection Hin as -> -> ->. exists [], []. reflexivity.
    + injection Hin as -> -> ->. exists [], [EvInfo c ri0]. reflexivity.
Qed.

Lemma esecuzione_info_sublist l (t : list (event Price)) r :
  esecuzione l t r -> sublist (richieste_info t) (richieste_history t).
Proof.
  intros H. induction H as [|c0 l t t' r Ht _ IH|c0 l t q Ht].
  - constructor.
  - rewrite richieste_info_app, richieste_history_app.
    apply sublist_app; [|exact IH].
    destruct (tentativo_info _ _ _ Ht) as [-> | [-> ->]]; [apply sublist_nil_l|reflexivity].
  - destruct (tentativo_info _ _ _ Ht) as [-> | [-> ->]]; [apply sublist_nil_l|reflexivity].
Qed.

Lemma esecuzione_lunghezza l (t : list (event Price)) r :
  esecuzione l t r ->
  (List.length t <= 3 * List.length l)%nat /\ (l <> [] -> 1 <= List.length t)%nat.
Proof.
  intros H. induction H as [|c0 l t t' r Ht _ IH|c0 l t q Ht].
  - split; [simpl; lia|congruence].
  - pose proof (tentativo_lunghezza _ _ _ Ht). rewrite length_app. simpl. split; lia.
  - pose proof (tentativo_lunghezza _ _ _ Ht). simpl. split; lia.
Qed.

(** X2. The search is exhaustive and stops at the match.  A run that
    reports nothing found has built a ticker object for each of the six
    candidates, in list order.  A run that returns a quote has done so for
    the candidates up to the returned one and has made no call at all that
    names a later candidate. *)
Theorem ricerca_esaustiva (ticker_input : string) (s : St) :
  exists r t s',
    trova_prezzo_robusto P ticker_input s = (Ok r, t, s') /\
    (r = NonTrovato -> tentati t = possibili_ticker ticker_input) /\
    (forall q, r = Trovato q ->
       exists prima dopo,
         possibili_ticker ticker_input = (prima ++ simbolo q :: dopo)%list /\
         tentati t = (prima ++ [simbolo q])%list /\
         forall ev, In ev t -> ~ In (simbolo_di ev) dopo).
Proof.
  destruct (trova_prezzo_robusto_run P ticker_input s) as (r & t & s' & Hr & He & _).
  pose proof (possibili_ticker_NoDup ticker_input) as Hnd.
  exists r, t, s'. split; [exact Hr|]. split.
  - intros ->. apply (saltati_tentati _ _ He).
  - intros q ->.
    destruct (esecuzione_Trovato _ _ _ He)
      as (l1 & l2 & t1 & df & ri & p & n & Hl & Hs & Ht & _).
    exists l1, l2. split; [exact Hl|]. split.
    + rewrite Ht, tentati_app, (saltati_tentati _ _ Hs). reflexivity.
    + intros ev Hin Hdopo. rewrite Hl in Hnd.
      assert (Hprima : In (simbolo_di ev) (l1 ++ [simbolo q])).
      { rewrite Ht in Hin. apply in_app_or in Hin. apply in_or_app.
        destruct Hin as [Hin|Hin].
        - left. apply (esecuzione_simbolo _ _ _ _ Hs Hin).
        - right. simpl in Hin. destruct Hin as [<-|[<-|[<-|[]]]]; simpl; auto. }
      apply in_app_or in Hprima. destruct Hprima as [Hp|Hp].
      * apply NoDup_ListNoDup in Hnd. apply NoDup_app in Hnd.
        destruct Hnd as (_ & Hdis & _).
        apply (Hdis (simbolo_di ev)).
        -- apply list_elem_of_In. exact Hp.
        -- apply list_elem_of_In. right. exact Hdopo.
      * simpl in Hp. destruct Hp as [Hp|[]]. rewrite <- Hp in Hdopo.
        apply List.NoDup_remove_2 in Hnd. apply Hnd, in_or_app. right. exact Hdopo.
Qed.

(** X3. In every run the price-history requests all ask for the period
    [5d], name candidates only, follow the candidate order, name no symbol
    twice and are at most six. *)
Theorem richieste_history_limitate (ticker_input : string) (s : St) :
  exists r t s',
    trova_prezzo_robusto P ticker_input s = (Ok r, t, s') /\
    (forall c per rh, In (EvHistory c per rh) t -> per = "5d") /\
    sublist (richieste_history t) (possibili_ticker ticker_input) /\
    List.NoDup (richieste_history t) /\
    (List.length (richieste_history t) <= 6)%nat.
Proof.
  destruct (trova_prezzo_robusto_run P ticker_input s) as (r & t & s' & Hr & He & _).
  pose proof (esecuzione_history_sublist _ _ _ He) as Hsub.
  exists r, t, s'. split; [exact Hr|]. split; [|split; [exact Hsub|split]].
  - intros c per rh Hin. eapply esecuzione_periodo; eassumption.
  - apply NoDup_ListNoDup. refine (sublist_NoDup _ _ _ Hsub).
    apply NoDup_ListNoDup, possibili_ticker_NoDup.
  - apply sublist_length in Hsub. exact Hsub.
Qed.

(** X4. The order of the calls for one candidate never varies.  Metadata
    is requested only right after a non-empty 5-day price history of the
    same symbol, and price history only right after the ticker object of
    that symbol was built without error; no symbol has its metadata
    requested twice. *)
Theorem protocollo_chiamate (ticker_input : string) (s : St) :
  exists r t s',
    trova_prezzo_robusto P ticker_input s = (Ok r, t, s') /\
    (forall c ri, In (EvInfo c ri) t ->
       exists t1 t2 df,
         t = (t1 ++ [EvTicker c (Ok tt); EvHistory c "5d" (Ok df); EvInfo c ri] ++ t2)%list /\
         Close df <> []) /\
    (forall c per rh, In (EvHistory c per rh) t ->
       exists t1 t2, t = (t1 ++ [EvTicker c (Ok tt); EvHistory c per rh] ++ t2)%list) /\
    sublist (richieste_info t) (richieste_history t) /\
    List.NoDup (richieste_info t).
Proof.
  destruct (trova_prezzo_robusto_run P ticker_input s) as (r & t & s' & Hr & He & _).
  pose proof (esecuzione_history_sublist _ _ _ He) as Hsub.
  pose proof (esecuzione_info_sublist _ _ _ He) as Hsubi.
  exists r, t, s'. split; [exact Hr|]. split; [|split; [|split; [exact Hsubi|]]].
  - intros c ri Hin. eapply esecuzione_info_dopo_history; eassumption.
  - intros c per rh Hin. eapply esecuzione_history_dopo_Ticker; eassumption.
  - apply NoDup_ListNoDup. refine (sublist_NoDup _ _ _ Hsubi).
    refine (sublist_NoDup _ _ _ Hsub).
    apply NoDup_ListNoDup, possibili_ticker_NoDup.
Qed.

(** X5. A run makes at least one and at most eighteen provider calls: at
    most six ticker objects, six price-history requests and six metadata
    requests. *)
Theorem limiti_chiamate (ticker_input : string) (s : St) :
  exists r t s',
    trova_prezzo_robusto P ticker_input s = (Ok r, t, s') /\
    (1 <= List.length t <= 18)%nat /\
    (List.length (tentati t) <= 6)%nat /\
    (List.length (richieste_history t) <= 6)%nat /\
    (List.length (richieste_info t) <= 6)%nat.
Proof.
  destruct (trova_prezzo_robusto_run P ticker_input s) as (r & t & s' & Hr & He & _).
  pose proof (esecuzione_history_sublist _ _ _ He) as Hsub.
  pose proof (esecuzione_info_sublist _ _ _ He) as Hsubi.
  apply sublist_length in Hsub. apply sublist_length in Hsubi.
  destruct (esecuzione_lunghezza _ _ _ He) as [Hmax Hmin].
  assert (Hlen : List.length (possibili_ticker ticker_input) = 6%nat) by reflexivity.
  rewrite Hlen in *.
  assert (Ht : (List.length (tentati t) <= 6)%nat).
  { destruct r as [|q].
    - rewrite (saltati_tentati _ _ He), Hlen. lia.
    - destruct (esecuzione_Trovato _ _ _ He)
        as (l1 & l2 & t1 & df & ri & p & n & Hl & Hs & -> & _).
      rewrite tentati_app, (saltati_tentati _ _ Hs). simpl.
      apply (f_equal (@List.length string)) in Hl.
      rewrite Hlen, !length_app in Hl. rewrite length_app. simpl in *. lia. }
  exists r, t, s'. split; [exact Hr|].
  repeat split; try lia. apply Hmin. discriminate.
Qed.

End Chiamate.

Section Esiti.

Context {Price St : Type}.
Variable P : Provider Price St.

Lemma nome_non_testuale c (ri : py_result (gmap string pyobj)) :
  (forall n, fst (metadati_da c ri) <> PyStr n) ->
  exists d v, ri = Ok d /\ d !! "longName" = Some v /\ forall n, v <> PyStr n.
Proof.
  intros H. destruct ri as [d|e].
  - simpl in H. unfold dict_get in H.
    destruct (d !! "longName") as [v|] eqn:E.
    + exists d, v. auto.
    + exfalso. exact (H c eq_refl).
  - exfalso. exact (H c eq_refl).
Qed.

(** X6. Which candidates are passed over.  A candidate whose 5-day price
    history came back non-empty is either the one returned, or its metadata
    came back with something other than a string under the long-name key;
    and a candidate with such metadata is never the one returned. *)
Theorem candidato_scartato (ticker_input : string) (s : St) :
  exists r t s',
    trova_prezzo_robusto P ticker_input s = (Ok r, t, s') /\
    (forall c per df, In (EvHistory c per (Ok df)) t -> Close df <> [] ->
       (exists q, r = Trovato q /\ simbolo q = c) \/
       (exists d v, In (EvInfo c (Ok d)) t /\ d !! "longName" = Some v /\
                    forall n, v <> PyStr n)) /\
    (forall c d v, In (EvInfo c (Ok d)) t -> d !! "longName" = Some v ->
       (forall n, v <> PyStr n) ->
       forall q, r = Trovato q -> simbolo q <> c).
Proof.
  destruct (trova_prezzo_robusto_run P ticker_input s) as (r & t & s' & Hr & He & _).
  pose proof (possibili_ticker_NoDup ticker_input) as Hnd.
  exists r, t, s'. split; [exact Hr|]. split.
  - intros c per df Hin Hne. destruct r as [|q].
    + right. destruct (saltati_history _ _ _ _ _ He Hin) as [Ha|(ri & Hi & Hn)].
      * contradiction.
      * destruct (nome_non_testuale _ _ Hn) as (d & v & -> & Hk & Hv). eauto.
    + destruct (esecuzione_Trovato _ _ _ He)
        as (l1 & l2 & t1 & df0 & ri0 & p & n & Hl & Hs & Ht & _).
      rewrite Ht in Hin. apply in_app_or in Hin. destruct Hin as [Hin|Hin].
      * right. destruct (saltati_history _ _ _ _ _ Hs Hin) as [Ha|(ri & Hi & Hn)].
        -- contradiction.
        -- destruct (nome_non_testuale _ _ Hn) as (d & v & -> & Hk & Hv).
           exists d, v. split; [|auto]. rewrite Ht. apply in_or_app. auto.
      * left. exists q. split; [reflexivity|].
        simpl in Hin. destruct Hin as [Hin|[Hin|[Hin|[]]]]; try discriminate.
        injection Hin as -> _ _. reflexivity.
  - intros c d v Hin Hk Hv q -> Hs.
    destruct (esecuzione_Trovato_unico _ _ _ He Hnd)
      as (t1 & df & ri & p & n & Ht & _ & Hu & _ & Hm & _).
    rewrite Ht in Hin. apply in_app_or in Hin. destruct Hin as [Hin|Hin].
    + apply (Hu _ Hin). simpl. congruence.
    + simpl in Hin. destruct Hin as [Hin|[Hin|[Hin|[]]]]; try discriminate.
      injection Hin as _ ->. simpl in Hm. unfold dict_get in Hm. rewrite Hk in Hm.
      injection Hm as Hm _. exact (Hv n Hm).
Qed.

Lemma provider_testuale_nomi (t : list (event Price)) :
  provider_testuale P -> Forall (genuino P) t -> nomi_testuali t.
Proof.
  intros Hp Hg c d v Hin Hk.
  destruct (proj1 (List.Forall_forall _ _) Hg _ Hin) as [s0 Hs0].
  exact (Hp c s0 d v Hs0 Hk).
Qed.

(** X7. Against a provider that stores nothing but strings under the
    long-name key, the returned candidate is the only one whose 5-day
    price history came back non-empty, nothing found means that no
    candidate had any, and metadata is requested once, for the returned
    candidate, and not at all when nothing is found. *)
Theorem primo_con_storia (ticker_input : string) (s : St) :
  provider_testuale P ->
  exists r t s',
    trova_prezzo_robusto P ticker_input s = (Ok r, t, s') /\
    (forall c per df, In (EvHistory c per (Ok df)) t -> Close df <> [] ->
       exists q, r = Trovato q /\ simbolo q = c) /\
    (r = NonTrovato <-> forall c per rh, In (EvHistory c per rh) t -> storia_assente rh) /\
    (r = NonTrovato -> richieste_info t = []) /\
    (forall q, r = Trovato q -> richieste_info t = [simbolo q]).
Proof.
  intros Hp.
  destruct (trova_prezzo_robusto_run P ticker_input s) as (r & t & s' & Hr & He & Hg).
  destruct (con_nomi_testuali P ticker_input s) as (r0 & t0 & s0 & Hr0 & Hc).
  rewrite Hr in Hr0. injection Hr0 as <- <- <-.
  destruct (Hc (provider_testuale_nomi _ Hp Hg)) as (H1 & H2 & H3).
  exists r, t, s'. split; [exact Hr|]. split; [exact H1|]. split; [|split; assumption].
  split.
  - intros -> c per rh Hin. destruct rh as [df|e]; [|exact I]. simpl.
    destruct (Close df) as [|b l] eqn:E; [reflexivity|].
    destruct (H1 c per df Hin) as (q & Hq & _); [rewrite E; discriminate|discriminate].
  - apply (esecuzione_assente _ _ _ He).
Qed.

(** X10. Metadata values that are present go into the result as they
    are: the name in the provider's own letter case, and the currency
    whatever its type, a [None] or a number included. *)
Theorem metadati_presenti_invariati (ticker_input : string) (s : St) :
  exists r t s',
    trova_prezzo_robusto P ticker_input s = (Ok r, t, s') /\
    forall q d, r = Trovato q -> In (EvInfo (simbolo q) (Ok d)) t ->
      (forall v, d !! "longName" = Some v -> nome q = v) /\
      (forall v, d !! "currency" = Some v -> valuta q = v).
Proof.
  destruct (trova_prezzo_robusto_run P ticker_input s) as (r & t & s' & Hr & He & _).
  pose proof (possibili_ticker_NoDup ticker_input) as Hnd.
  exists r, t, s'. split; [exact Hr|]. intros q d -> Hin.
  destruct (esecuzione_Trovato_unico _ _ _ He Hnd)
    as (t1 & df & ri & p & n & Ht & _ & Hu & _ & Hm & _ & Hn & _).
  rewrite Ht in Hin. apply in_app_or in Hin. destruct Hin as [Hin|Hin].
  { exfalso. exact (Hu _ Hin eq_refl). }
  simpl in Hin. destruct Hin as [Hin|[Hin|[Hin|[]]]]; try discriminate.
  injection Hin as ->. simpl in Hm. unfold dict_get in Hm.
  injection Hm as Hm1 Hm2. split; intros v Hk.
  - rewrite Hk in Hm1. congruence.
  - rewrite Hk in Hm2. congruence.
Qed.

(** X12. A returned quote is well formed: its symbol is one of the six
    candidates, its name is a string, and its category is one of the five
    labels, which are pairwise distinct. *)
Theorem quotazione_ben_formata (ticker_input : string) (s : St) :
  (exists r t s',
     trova_prezzo_robusto P ticker_input s = (Ok r, t, s') /\
     forall q, r = Trovato q ->
       In (simbolo q) (possibili_ticker ticker_input) /\
       (exists n, nome q = PyStr n) /\
       In (cat q) etichette) /\
  List.NoDup etichette.
Proof.
  split.
  - destruct (trova_prezzo_robusto_run P ticker_input s) as (r & t & s' & Hr & He & _).
    exists r, t, s'. split; [exact Hr|]. intros q ->.
    destruct (esecuzione_Trovato _ _ _ He)
      as (l1 & l2 & t1 & df & ri & p & n & Hl & _ & _ & _ & _ & Hq).
    split; [rewrite Hl; apply in_or_app; simpl; auto|].
    split; [exists n; rewrite Hq; reflexivity|].
    rewrite Hq. simpl. unfold categoria, etichette.
    destruct (str_in "MSCI WORLD" (upper n) || str_in "GLOBAL" (upper n)); [simpl; auto|].
    destruct (str_in "S&P 500" (upper n) || str_in "USA" (upper n)); [simpl; auto|].
    destruct (str_in "BOND" (upper n)); [simpl; auto|].
    destruct (str_in "EMERGING" (upper n)); simpl; auto 10.
  - unfold etichette.
    repeat (constructor; [simpl; intros Hin;
      repeat (destruct Hin as [Hin|Hin]; [discriminate|]); exact Hin|]).
    constructor.
Qed.

End Esiti.

(** *** Letter case and blank lines *)

Lemma upper_app (a b : string) : upper (a ++ b) = upper a ++ upper b.
Proof.
  induction a as [|c a IH]; [reflexivity|].
  rewrite append_cons. simpl. rewrite IH. reflexivity.
Qed.

Lemma contiene_upper (w n : string) : contiene w n -> contiene (upper w) (upper n).
Proof.
  intros (a & b & ->). exists (upper a), (upper b). rewrite !upper_app. reflexivity.
Qed.

(** X11. The keyword match ignores letter case and keeps the row order.
    A name that contains MSCI WORLD or GLOBAL in any casing is world
    equity whatever else it contains; failing that, S&P 500 or USA in any
    casing makes it US equity; failing that, BOND in any casing makes it
    fixed income; failing that, EMERGING in any casing makes it emerging
    markets. *)
Theorem parole_chiave_senza_maiuscole (n w : string) :
  contiene w n ->
  (upper w = "MSCI WORLD" \/ upper w = "GLOBAL" ->
   categoria (upper n) = cat_mondo) /\
  (~ riga_mondo (upper n) -> upper w = "S&P 500" \/ upper w = "USA" ->
   categoria (upper n) = cat_usa) /\
  (~ riga_mondo (upper n) -> ~ riga_usa (upper n) -> upper w = "BOND" ->
   categoria (upper n) = cat_obbligazionario) /\
  (~ riga_mondo (upper n) -> ~ riga_usa (upper n) -> ~ contiene "BOND" (upper n) ->
   upper w = "EMERGING" ->
   categoria (upper n) = cat_emergenti).
Proof.
  intros Hw. apply contiene_upper in Hw.
  repeat split.
  - intros Hk. symmetry. apply classifica_categoria, cl_mondo.
    destruct Hk as [Hk|Hk]; rewrite Hk in Hw; [left|right]; exact Hw.
  - intros N1 Hk. symmetry. apply classifica_categoria, cl_usa; [exact N1|].
    destruct Hk as [Hk|Hk]; rewrite Hk in Hw; [left|right]; exact Hw.
  - intros N1 N2 Hk. symmetry. apply classifica_categoria, cl_obbligazionario; try assumption.
    rewrite Hk in Hw. exact Hw.
  - intros N1 N2 N3 Hk. symmetry. apply classifica_categoria, cl_emergenti; try assumption.
    rewrite Hk in Hw. exact Hw.
Qed.

Lemma tutti_spazi_lstrip (s : string) : tutti_spazi s = true -> lstrip s = "".
Proof.
  induction s as [|c s IH]; [reflexivity|]. simpl.
  destruct (isspace c); [exact IH|discriminate].
Qed.

Lemma tutti_spazi_upper (s : string) : tutti_spazi (upper s) = tutti_spazi s.
Proof.
  induction s as [|c s IH]; [reflexivity|]. simpl.
  rewrite isspace_upper_char, IH. reflexivity.
Qed.

Lemma tutti_spazi_app (a b : string) :
  tutti_spazi (a ++ b) = tutti_spazi a && tutti_spazi b.
Proof.
  induction a as [|c a IH]; [reflexivity|].
  rewrite append_cons. simpl. rewrite IH, andb_assoc. reflexivity.
Qed.

(** The root that [main] hands over is empty exactly for a blank line. *)
Lemma radice_vuota (riga : string) :
  strip (upper riga) = "" <-> tutti_spazi riga = true.
Proof.
  split.
  - intros H. destruct (strip_app (upper riga)) as (a & b & Hab & Ha & Hb).
    rewrite H in Hab. rewrite <- tutti_spazi_upper, Hab, !tutti_spazi_app, Ha, Hb.
    reflexivity.
  - intros H. unfold strip. rewrite tutti_spazi_lstrip; [reflexivity|].
    rewrite tutti_spazi_upper. exact H.
Qed.

Section Bordi.

Context {Price St : Type}.
Variable P : Provider Price St.

Lemma esecuzione_primo c l (t : list (event Price)) r :
  esecuzione (c :: l) t r -> exists rt t', t = EvTicker c rt :: t'.
Proof.
  intros H. inversion H as [|c0 l0 t0 t1 r0 Ht _|c0 l0 t0 q Ht]; subst;
    destruct (tentativo_forma _ _ _ Ht) as [[e ->]|[(rh & -> & _)|(df & ri & -> & _)]];
    simpl; eauto.
Qed.

(** X8. Nothing validates the line read by [main].  For an empty line or
    one of white space only the root is the empty string; the resolver is
    still run, its first call builds the ticker object for the bare suffix
    [.MI], every call names a bare suffix or the empty symbol, and nothing
    found is reported only after all six, the empty symbol last, were
    tried. *)
Theorem riga_vuota (riga : string) (s : St) :
  tutti_spazi riga = true ->
  exists r t s',
    main P riga s = (Ok r, t, s') /\
    (exists rt t', t = EvTicker ".MI" rt :: t') /\
    (forall ev, In ev t -> In (simbolo_di ev) [".MI"; ".PA"; ".DE"; ".AS"; ".L"; ""]) /\
    (r = NonTrovato -> tentati t = [".MI"; ".PA"; ".DE"; ".AS"; ".L"; ""]).
Proof.
  intros Hb. apply radice_vuota in Hb.
  unfold main. cbv zeta. rewrite Hb.
  destruct (trova_prezzo_robusto_run P "" s) as (r & t & s' & Hr & He & _).
  exists r, t, s'. split; [exact Hr|].
  change (possibili_ticker "") with [".MI"; ".PA"; ".DE"; ".AS"; ".L"; ""] in He.
  split; [apply (esecuzione_primo _ _ _ _ He)|]. split.
  - intros ev Hin. apply (esecuzione_simbolo _ _ _ _ He Hin).
  - intros ->. apply (saltati_tentati _ _ He).
Qed.

Lemma esecuzione_Ticker_in_errore l (t : list (event Price)) r :
  esecuzione l t r ->
  (forall c rt, In (EvTicker c rt) t -> exists e, rt = Raises e) ->
  r = NonTrovato /\ tentati t = l /\ List.length t = List.length l.
Proof.
  intros H. induction H as [|c0 l t t' r Ht _ IH|c0 l t q Ht]; intros Ha.
  - auto.
  - destruct IH as (-> & IH2 & IH3).
    { intros c rt Hin. apply (Ha c rt), in_or_app. auto. }
    split; [reflexivity|].
    destruct (tentativo_forma _ _ _ Ht) as [[e ->]|[(rh & -> & _)|(df & ri & -> & _)]].
    + simpl. rewrite IH2, IH3. auto.
    + destruct (Ha c0 (Ok tt)) as [e He]; [simpl; auto|discriminate].
    + destruct (Ha c0 (Ok tt)) as [e He]; [simpl; auto|discriminate].
  - exfalso. inversion Ht; subst.
    destruct (Ha c0 (Ok tt)) as [e He]; [simpl; auto|discriminate].
Qed.

(** X13. When building the ticker object fails for every candidate, in
    whatever state the provider is, the resolver tries all six, makes no
    other call, and returns [{"trovato": False}]. *)
Theorem provider_fuori_servizio (ticker_input : string) (s : St) :
  (forall c s0, In c (possibili_ticker ticker_input) ->
                exists e, fst (Ticker P c s0) = Raises e) ->
  exists t s',
    trova_prezzo_robusto P ticker_input s = (Ok NonTrovato, t, s') /\
    tentati t = possibili_ticker ticker_input /\
    List.length t = 6%nat.
Proof.
  intros Ha.
  destruct (trova_prezzo_robusto_run P ticker_input s) as (r & t & s' & Hr & He & Hg).
  destruct (esecuzione_Ticker_in_errore _ _ _ He) as (-> & Ht & Hl).
  - intros c rt Hin.
    destruct (proj1 (List.Forall_forall _ _) Hg _ Hin) as [s0 <-].
    apply Ha. apply (esecuzione_simbolo _ _ _ _ He Hin).
  - exists t, s'. split; [exact Hr|]. split; [exact Ht|exact Hl].
Qed.

Lemma tenta_errori_come_vuote (c : string) (s : St) :
  fst (fst (tenta (errori_come_vuote P) c s)) = fst (fst (tenta P c s)) /\
  snd (tenta (errori_come_vuote P) c s) = snd (tenta P c s) /\
  tentati (snd (fst (tenta (errori_come_vuote P) c s))) = tentati (snd (fst (tenta P c s))) /\
  richieste_history (snd (fst (tenta (errori_come_vuote P) c s)))
    = richieste_history (snd (fst (tenta P c s))) /\
  richieste_info (snd (fst (tenta (errori_come_vuote P) c s)))
    = richieste_info (snd (fst (tenta P c s))).
Proof.
  rewrite !tenta_eq. simpl.
  destruct (Ticker P c s) as [[u|e] s1]; [|simpl; auto].
  destruct (history P c "5d" s1) as [[df|e] s2].
  - destruct (iloc_last (Close df)); [|simpl; auto].
    cbv zeta. destruct (fst (metadati_da c (fst (info P c s2)))); simpl; auto.
  - simpl. auto.
Qed.

(** X9. A raised price-history fetch and an empty table are the same to
    the resolver.  Against the provider with every such error replaced by
    an empty table it returns the same result, makes the same requests for
    the same symbols in the same order and leaves the provider in the same
    state. *)
Theorem errore_come_storia_vuota (ticker_input : string) (s : St) :
  fst (fst (trova_prezzo_robusto (errori_come_vuote P) ticker_input s))
    = fst (fst (trova_prezzo_robusto P ticker_input s)) /\
  snd (trova_prezzo_robusto (errori_come_vuote P) ticker_input s)
    = snd (trova_prezzo_robusto P ticker_input s) /\
  tentati (snd (fst (trova_prezzo_robusto (errori_come_vuote P) ticker_input s)))
    = tentati (snd (fst (trova_prezzo_robusto P ticker_input s))) /\
  richieste_history (snd (fst (trova_prezzo_robusto (errori_come_vuote P) ticker_input s)))
    = richieste_history (snd (fst (trova_prezzo_robusto P ticker_input s))) /\
  richieste_info (snd (fst (trova_prezzo_robusto (errori_come_vuote P) ticker_input s)))
    = richieste_info (snd (fst (trova_prezzo_robusto P ticker_input s))).
Proof.
  unfold trova_prezzo_robusto. generalize (possibili_ticker ticker_input) as l.
  intros l. revert s. induction l as [|c l IH]; intros s; [simpl; auto|].
  simpl. unfold bind.
  destruct (tenta_errori_come_vuote c s) as (E1 & E2 & E3 & E4 & E5).
  destruct (tenta (errori_come_vuote P) c s) as [[o1 t1] s1].
  destruct (tenta P c s) as [[o2 t2] s2].
  simpl in E1, E2, E3, E4, E5. subst o2 s2.
  destruct o1 as [[q|]|e].
  - simpl. rewrite !app_nil_r. auto.
  - specialize (IH s1).
    destruct (ciclo (errori_come_vuote P) l s1) as [[r1 u1] x1].
    destruct (ciclo P l s1) as [[r2 u2] x2].
    simpl in IH |- *. destruct IH as (I1 & I2 & I3 & I4 & I5).
    rewrite !tentati_app, !richieste_history_app, !richieste_info_app.
    rewrite E3, E4, E5, I3, I4, I5. auto.
  - simpl. auto.
Qed.

End Bordi.

(** *** The conditional properties at concrete inputs *)

Lemma primo_con_storia_witness :
  provider_testuale (stub (storia_solo ["MWRD.PA"; "MWRD.L"]) info_completa) /\
  exists q t s',
    trova_prezzo_robusto (stub (storia_solo ["MWRD.PA"; "MWRD.L"]) info_completa) "MWRD" 0
      = (Ok (Trovato q), t, s') /\
    simbolo q = "MWRD.PA" /\ richieste_info t = ["MWRD.PA"].
Proof.
  assert (Hp : provider_testuale (stub (storia_solo ["MWRD.PA"; "MWRD.L"]) info_completa)).
  { intros c s0 d v Hd Hk. simpl in Hd. injection Hd as <-.
    vm_compute in Hk. injection Hk as <-. eauto. }
  split; [exact Hp|].
  destruct (primo_con_storia (stub (storia_solo ["MWRD.PA"; "MWRD.L"]) info_completa)
              "MWRD" 0 Hp) as (r & t & s' & Hr & _ & _ & _ & Hi).
  pose proof Hr as Hr'. vm_compute in Hr'. injection Hr' as Hq _ _.
  rewrite <- Hq in Hr, Hi.
  eexists _, t, s'. split; [exact Hr|]. split; [reflexivity|].
  exact (Hi _ eq_refl).
Defined.

Lemma riga_vuota_witness :
  tutti_spazi "   " = true /\
  exists r t s',
    main (stub storia_nessuna info_completa) "   " 0 = (Ok r, t, s') /\
    r = NonTrovato /\
    tentati t = [".MI"; ".PA"; ".DE"; ".AS"; ".L"; ""].
Proof.
  split; [reflexivity|].
  destruct (riga_vuota (stub storia_nessuna info_completa) "   " 0 eq_refl)
    as (r & t & s' & Hr & _ & _ & Ht).
  pose proof Hr as Hr'. vm_compute in Hr'. injection Hr' as Hq _ _.
  exists r, t, s'. split; [exact Hr|]. split; [symmetry; exact Hq|].
  apply Ht. symmetry. exact Hq.
Defined.

Lemma parole_chiave_senza_maiuscole_witness :
  contiene "Global" "iShares Global Clean Energy" /\
  categoria (upper "iShares Global Clean Energy") = cat_mondo.
Proof.
  assert (Hc : contiene "Global" "iShares Global Clean Energy").
  { exists "iShares ", " Clean Energy". reflexivity. }
  split; [exact Hc|].
  apply (proj1 (parole_chiave_senza_maiuscole _ _ Hc)). right. reflexivity.
Defined.

Lemma provider_fuori_servizio_witness :
  (forall c s0, In c (possibili_ticker "MWRD") ->
                exists e, fst (Ticker stub_fuori_servizio c s0) = Raises e) /\
  exists t s',
    trova_prezzo_robusto stub_fuori_servizio "MWRD" 0 = (Ok NonTrovato, t, s') /\
    tentati t = possibili_ticker "MWRD" /\
    List.length t = 6%nat.
Proof.
  assert (H : forall c s0, In c (possibili_ticker "MWRD") ->
                exists e, fst (Ticker stub_fuori_servizio c s0) = Raises e).
  { intros c s0 _. eexists. reflexivity. }
  split; [exact H|].
  exact (provider_fuori_servizio stub_fuori_servizio "MWRD" 0 H).
Defined.

Lemma metadati_presenti_invariati_witness :
  exists q,
    fst (fst (trova_prezzo_robusto (stub (storia_solo ["MWRD.DE"]) info_valuta_nulla) "MWRD" 0))
      = Ok (Trovato q) /\
    nome q = PyStr "Lyxor Core Global Bond" /\ valuta q = PyNone.
Proof.
  destruct (metadati_presenti_invariati (stub (storia_solo ["MWRD.DE"]) info_valuta_nulla) "MWRD" 0)
    as (r & t & s' & Hr & Hm).
  rewrite Hr. vm_compute in Hr. injection Hr as <- <- _.
  destruct (Hm _ (list_to_map [("longName", PyStr "Lyxor Core Global Bond");
                               ("currency", PyNone)]) eq_refl) as [Hn Hv].
  - vm_compute. auto 10.
  - eexists. split; [reflexivity|]. split.
    + apply Hn. reflexivity.
    + apply Hv. reflexivity.
Defined.
